(** * The static resource-breakdown estimator of the cheerio route

    A shallow embedding of [analyzeResourcesWithCheerio] and of the helpers it
    calls ([extractBackgroundImage], [estimateCSSSize], [estimateJSSize],
    [estimateImageSize], [estimateFontSize], [estimateOtherResourceSize]),
    followed by the properties of the estimator.

    Conventions of the embedding.
    - A JavaScript string is a [string]: the bytes of its UTF-8 encoding, so
      that [Buffer.byteLength(s, 'utf8')] is its length.  Every constant the
      code searches for or compares with is ASCII, so searching and comparing
      bytes agrees with searching and comparing UTF-16 code units.
    - A JavaScript number holding a count or a size is a [Z]; the code only
      adds such numbers.
    - [undefined] and [null] are [None]; a value is truthy when it is [Some]
      non-empty string. *)

From Stdlib Require Import ZArith List String Ascii Bool Lia Permutation.
Import ListNotations.

Open Scope string_scope.
Open Scope Z_scope.

(** ** JavaScript string primitives used by the route *)

Module Js.

(** [s.startsWith(sub)] *)
Fixpoint startsWith (s sub : string) {struct sub} : bool :=
  match sub, s with
  | EmptyString, _ => true
  | String _ _, EmptyString => false
  | String a sub', String b s' => Ascii.eqb a b && startsWith s' sub'
  end.

(** [s.includes(sub)]: [sub] starts somewhere in [s]. *)
Fixpoint includes (s sub : string) : bool :=
  startsWith s sub
  || match s with
     | EmptyString => false
     | String _ s' => includes s' sub
     end.

(** [s.split(sep)] for a one-character separator. *)
Fixpoint split (sep : ascii) (s : string) : list string :=
  match s with
  | EmptyString => [EmptyString]
  | String c s' =>
      if Ascii.eqb c sep then EmptyString :: split sep s'
      else match split sep s' with
           | seg :: rest => String c seg :: rest
           | [] => [String c EmptyString]
           end
  end.

(** [l.pop()]: the last element, [undefined] on an empty array. *)
Fixpoint pop {A : Type} (l : list A) : option A :=
  match l with
  | [] => None
  | [x] => Some x
  | _ :: l' => pop l'
  end.

Definition is_upper (c : ascii) : bool :=
  (65 <=? nat_of_ascii c)%nat && (nat_of_ascii c <=? 90)%nat.

Definition lower_char (c : ascii) : ascii :=
  if is_upper c then ascii_of_nat (nat_of_ascii c + 32) else c.

Definition upper_char (c : ascii) : ascii :=
  if (97 <=? nat_of_ascii c)%nat && (nat_of_ascii c <=? 122)%nat
  then ascii_of_nat (nat_of_ascii c - 32) else c.

(** [s.toLowerCase()].  Only A-Z are mapped: the results are compared with
    the constants svg, png, jpg, jpeg, webp, gif, woff2, woff and ttf only,
    and no character outside ASCII lower-cases to a letter of these. *)
Fixpoint toLowerCase (s : string) : string :=
  match s with
  | EmptyString => EmptyString
  | String c s' => String (lower_char c) (toLowerCase s')
  end.

(** [Buffer.byteLength(s, 'utf8')]. *)
Definition byteLength (s : string) : Z := Z.of_nat (String.length s).

(** Truthiness of a [string | undefined | null] value. *)
Definition truthy (v : option string) : bool :=
  match v with
  | Some (String _ _) => true
  | _ => false
  end.

(** [a || b] on such values. *)
Definition or_else (a b : option string) : option string :=
  if truthy a then a else b.

(** The white space and line terminators [String.prototype.trim] removes, in
    UTF-8: TAB LF VT FF CR SP, U+00A0, U+1680, U+2000..U+200A, U+2028,
    U+2029, U+202F, U+205F, U+3000 and U+FEFF.  [strip_space s] drops one
    such character from the front of [s]. *)
Definition strip_space (s : string) : option string :=
  match s with
  | String c1 r1 =>
      let n1 := nat_of_ascii c1 in
      if ((9 <=? n1) && (n1 <=? 13) || (n1 =? 32))%nat then Some r1
      else match r1 with
      | String c2 r2 =>
          let n2 := nat_of_ascii c2 in
          if ((n1 =? 194) && (n2 =? 160))%nat then Some r2
          else match r2 with
          | String c3 r3 =>
              let n3 := nat_of_ascii c3 in
              if ((n1 =? 225) && (n2 =? 154) && (n3 =? 128)
                  || (n1 =? 226) && (n2 =? 128)
                     && ((128 <=? n3) && (n3 <=? 138)
                         || (n3 =? 168) || (n3 =? 169) || (n3 =? 175))
                  || (n1 =? 226) && (n2 =? 129) && (n3 =? 159)
                  || (n1 =? 227) && (n2 =? 128) && (n3 =? 128)
                  || (n1 =? 239) && (n2 =? 187) && (n3 =? 191))%nat
              then Some r3 else None
          | EmptyString => None
          end
      | EmptyString => None
      end
  | EmptyString => None
  end.

(** [s.trim()] is the empty string: [s] is white space only.  The fuel is
    the length of [s], and every step drops at least one byte. *)
Fixpoint blank_fuel (fuel : nat) (s : string) : bool :=
  match s with
  | EmptyString => true
  | _ =>
      match fuel with
      | O => false
      | S fuel' =>
          match strip_space s with
          | Some s' => blank_fuel fuel' s'
          | None => false
          end
      end
  end.

Definition trim_is_empty (s : string) : bool :=
  blank_fuel (String.length s) s.

End Js.

(** ** The size tables *)

Module Estimate.
Import Js.

Definition estimateCSSSize (href : string) : Z :=
  if includes href "bootstrap" || includes href "tailwind" then 150000
  else if includes href "font-awesome" || includes href "material-icons"
  then 75000
  else if includes href ".min.css" then 25000
  else 40000.

Definition estimateJSSize (src : string) : Z :=
  if includes src "react" || includes src "vue" || includes src "angular"
  then 200000
  else if includes src "jquery" then 85000
  else if includes src "lodash" || includes src "moment" then 70000
  else if includes src ".min.js" then 30000
  else 50000.

(** [ext === 'svg'] for [ext : string | undefined]. *)
Definition ext_eq (ext : option string) (s : string) : bool :=
  match ext with
  | Some e => String.eqb e s
  | None => false
  end.

(** [src.split('.').pop()?.toLowerCase()] *)
Definition extension (src : string) : option string :=
  option_map toLowerCase (pop (split "." src)).

Definition estimateImageSize (src : string) : Z :=
  let ext := extension src in
  if ext_eq ext "svg" then 5000
  else if ext_eq ext "png" then 80000
  else if ext_eq ext "jpg" || ext_eq ext "jpeg" then 60000
  else if ext_eq ext "webp" then 40000
  else if ext_eq ext "gif" then 100000
  else 75000.

Definition estimateFontSize (href : string) : Z :=
  let ext := extension href in
  if ext_eq ext "woff2" then 25000
  else if ext_eq ext "woff" then 35000
  else if ext_eq ext "ttf" then 60000
  else 30000.

Definition estimateOtherResourceSize (href : string) : Z :=
  if includes href "favicon" then 5000
  else if includes href "manifest" then 2000
  else 20000.

End Estimate.

(** ** The regular expression of [extractBackgroundImage]

    A backtracking matcher for the fragment of JavaScript regular expressions
    the route uses: single characters and character classes under the
    quantifiers [?], [*] and [+] (all greedy), and capture groups. *)

Module Regex.

Inductive atom :=
| Chr (c : ascii)
| Cls (negated : bool) (members : list ascii).

Inductive quant := Once | Opt | Star | Plus.

Inductive item :=
| Atom (a : atom) (q : quant)
| Open (n : nat)
| Close (n : nat).

Definition regex := list item.

(** Under the [i] flag both sides are canonicalised to upper case; for the
    ASCII patterns here only the ASCII letters are affected. *)
Definition char_eq (ignoreCase : bool) (p c : ascii) : bool :=
  if ignoreCase then Ascii.eqb (Js.upper_char p) (Js.upper_char c)
  else Ascii.eqb p c.

Definition atom_matches (ignoreCase : bool) (a : atom) (c : ascii) : bool :=
  match a with
  | Chr p => char_eq ignoreCase p c
  | Cls negated members =>
      xorb negated (existsb (fun p => char_eq ignoreCase p c) members)
  end.

(** Where each group opened and closed last, as offsets into the subject. *)
Record caps := { starts : list (nat * nat); ends : list (nat * nat) }.

Definition no_caps : caps := {| starts := []; ends := [] |}.

Fixpoint find (n : nat) (l : list (nat * nat)) : option nat :=
  match l with
  | [] => None
  | (k, v) :: l' => if Nat.eqb k n then Some v else find n l'
  end.

Definition cont := string -> nat -> caps -> option caps.

(** One character matched by [p], then [k]. *)
Definition one (p : ascii -> bool) (k : cont) : cont :=
  fun s pos c =>
    match s with
    | String x s' => if p x then k s' (S pos) c else None
    | EmptyString => None
    end.

(** Greedy repetition: as many characters as possible first, one fewer on
    each failure of [k]. *)
Fixpoint star (p : ascii -> bool) (k : cont) (s : string) (pos : nat)
    (c : caps) : option caps :=
  match
    match s with
    | String x s' => if p x then star p k s' (S pos) c else None
    | EmptyString => None
    end
  with
  | Some c' => Some c'
  | None => k s pos c
  end.

Fixpoint run (ignoreCase : bool) (r : regex) : cont :=
  match r with
  | [] => fun _ _ c => Some c
  | Open n :: r' =>
      fun s pos c =>
        run ignoreCase r' s pos
          {| starts := (n, pos) :: starts c; ends := ends c |}
  | Close n :: r' =>
      fun s pos c =>
        run ignoreCase r' s pos
          {| starts := starts c; ends := (n, pos) :: ends c |}
  | Atom a q :: r' =>
      let p := atom_matches ignoreCase a in
      let k := run ignoreCase r' in
      match q with
      | Once => one p k
      | Opt =>
          fun s pos c =>
            match one p k s pos c with
            | Some c' => Some c'
            | None => k s pos c
            end
      | Star => star p k
      | Plus => one p (star p k)
      end
  end.

(** The leftmost match: every start offset in turn. *)
Fixpoint search (ignoreCase : bool) (r : regex) (s : string) (pos : nat)
    : option caps :=
  match run ignoreCase r s pos no_caps with
  | Some c => Some c
  | None =>
      match s with
      | String _ s' => search ignoreCase r s' (S pos)
      | EmptyString => None
      end
  end.

(** [s.match(r)[n]] for a regex without the [g] flag; [None] when there is
    no match or group [n] took no part in it. *)
Definition match_group (ignoreCase : bool) (r : regex) (s : string) (n : nat)
    : option string :=
  match search ignoreCase r s 0 with
  | Some c =>
      match find n (starts c), find n (ends c) with
      | Some b, Some e => Some (substring b (e - b) s)
      | _, _ => None
      end
  | None => None
  end.

Definition lit (s : string) : regex :=
  map (fun c => Atom (Chr c) Once) (list_ascii_of_string s).

End Regex.

(** ** The parsed document handed over by cheerio *)

Module Dom.

(** The tree [cheerio.load] builds: text nodes and elements with their
    attributes in source order. *)
#[warning="-register-all"]
Inductive node :=
| Text (data : string)
| Tag (name : string) (attribs : list (string * string))
      (children : list node).

(** The text under a [style] or [script] element.  The HTML parser reads
    the content of these two as raw text, so their children are text nodes
    and the inner HTML is that text. *)
Fixpoint text_of (l : list node) : string :=
  match l with
  | [] => EmptyString
  | Text d :: l' => d ++ text_of l'
  | Tag _ _ _ :: l' => text_of l'
  end.

Definition raw_text (nm : string) : bool :=
  String.eqb nm "style" || String.eqb nm "script".

(** An element as the route sees it: its name and attributes, its inner
    text, and the names of its ancestors, nearest first. *)
Record element := {
  name : string;
  attribs : list (string * string);
  inner : string;
  ancestors : list string
}.

(** All elements under [n] in document order, [n] included. *)
Fixpoint elements_of (anc : list string) (n : node) : list element :=
  match n with
  | Text _ => []
  | Tag nm at_ ch =>
      {| name := nm; attribs := at_; inner := text_of ch; ancestors := anc |}
      :: flat_map (elements_of (nm :: anc)) ch
  end.

Definition elements (anc : list string) (doc : list node) : list element :=
  flat_map (elements_of anc) doc.

(** [$(elem).attr(k)] *)
Fixpoint lookup (k : string) (l : list (string * string)) : option string :=
  match l with
  | [] => None
  | (k', v) :: l' => if String.eqb k' k then Some v else lookup k l'
  end.

Definition attr (elem : element) (k : string) : option string :=
  lookup k (attribs elem).

(** [$(elem).html()], called on [style] and [script] elements only. *)
Definition html (elem : element) : option string := Some (inner elem).

(** *** Selectors *)

Definition selector := element -> bool.

Definition tag (nm : string) : selector :=
  fun e => String.eqb (name e) nm.

(** [[a]] *)
Definition has_attr (a : string) : selector :=
  fun e => match attr e a with Some _ => true | None => false end.

(** [[a="v"]], the value compared as it is. *)
Definition attr_is (a v : string) : selector :=
  fun e => match attr e a with Some x => String.eqb x v | None => false end.

(** [[rel="v"]]: in an HTML document the selector engine compares the value
    of [rel] without regard to case. *)
Definition rel_is (v : string) : selector :=
  fun e =>
    match attr e "rel" with
    | Some x => String.eqb (Js.toLowerCase x) (Js.toLowerCase v)
    | None => false
    end.

(** [[a*="v"]] *)
Definition attr_contains (a v : string) : selector :=
  fun e => match attr e a with Some x => Js.includes x v | None => false end.

(** The left side of a descendant combinator: some ancestor is a [nm]. *)
Definition inside (nm : string) : selector :=
  fun e => existsb (fun a => String.eqb a nm) (ancestors e).

Definition and_ (p q : selector) : selector := fun e => p e && q e.
Definition or_ (p q : selector) : selector := fun e => p e || q e.
Definition not_ (p : selector) : selector := fun e => negb (p e).

(** [$(selector)]: the matching elements, each once, in document order. *)
Definition select (doc : list node) (p : selector) : list element :=
  filter p (elements [] doc).

End Dom.

(** ** The route: [analyzeResourcesWithCheerio] and [extractBackgroundImage] *)

Module Route.
Import Js Estimate Regex Dom.

Definition quotes : list ascii := ["'"%char; "034"%char].

(** The pattern of [extractBackgroundImage] with the [i] flag, item by item
    as the source writes it: the text [background-image:], a backslash,
    [s*], the text [url], a backslash, group 1 opening, an optional quote,
    group 2 holding [[^'dq]+], an optional quote, a backslash, and group 1
    closing (dq is the double quote).  Each doubled backslash of the source
    is an escaped backslash, which matches one backslash of the subject and
    leaves the [s] and the parentheses next to it with their plain meaning. *)
Definition background_image_re : regex :=
  (lit "background-image:"
   ++ [Atom (Chr "\") Once; Atom (Chr "s") Star]
   ++ lit "url"
   ++ [Atom (Chr "\") Once;
      Open 1;
      Atom (Cls false quotes) Opt;
      Open 2; Atom (Cls true quotes) Plus; Close 2;
      Atom (Cls false quotes) Opt;
      Atom (Chr "\") Once;
      Close 1])%list.

Definition extractBackgroundImage (style : option string) : option string :=
  if negb (truthy style) then None
  else match style with
       | Some s => match_group true background_image_re s 1
       | None => None
       end.

Inductive ResourceType :=
| document | stylesheet | script | image | font | other.

Record tally := { count : Z; size : Z }.

(** The [breakdown] object: one tally under each of the six keys. *)
Record Breakdown := {
  b_document : tally;
  b_stylesheet : tally;
  b_script : tally;
  b_image : tally;
  b_font : tally;
  b_other : tally
}.

(** [breakdown[k]] *)
Definition get (k : ResourceType) (b : Breakdown) : tally :=
  match k with
  | document => b_document b
  | stylesheet => b_stylesheet b
  | script => b_script b
  | image => b_image b
  | font => b_font b
  | other => b_other b
  end.

(** [breakdown[k] = t] *)
Definition set (k : ResourceType) (t : tally) (b : Breakdown) : Breakdown :=
  match k with
  | document =>
      {| b_document := t; b_stylesheet := b_stylesheet b;
         b_script := b_script b; b_image := b_image b; b_font := b_font b;
         b_other := b_other b |}
  | stylesheet =>
      {| b_document := b_document b; b_stylesheet := t;
         b_script := b_script b; b_image := b_image b; b_font := b_font b;
         b_other := b_other b |}
  | script =>
      {| b_document := b_document b; b_stylesheet := b_stylesheet b;
         b_script := t; b_image := b_image b; b_font := b_font b;
         b_other := b_other b |}
  | image =>
      {| b_document := b_document b; b_stylesheet := b_stylesheet b;
         b_script := b_script b; b_image := t; b_font := b_font b;
         b_other := b_other b |}
  | font =>
      {| b_document := b_document b; b_stylesheet := b_stylesheet b;
         b_script := b_script b; b_image := b_image b; b_font := t;
         b_other := b_other b |}
  | other =>
      {| b_document := b_document b; b_stylesheet := b_stylesheet b;
         b_script := b_script b; b_image := b_image b; b_font := b_font b;
         b_other := t |}
  end.

(** [breakdown[k].count += n] *)
Definition count_add (k : ResourceType) (n : Z) (b : Breakdown) : Breakdown :=
  set k {| count := count (get k b) + n; size := size (get k b) |} b.

(** [breakdown[k].size += n] *)
Definition size_add (k : ResourceType) (n : Z) (b : Breakdown) : Breakdown :=
  set k {| count := count (get k b); size := size (get k b) + n |} b.

Definition key (k : ResourceType) : string :=
  match k with
  | document => "document"
  | stylesheet => "stylesheet"
  | script => "script"
  | image => "image"
  | font => "font"
  | other => "other"
  end.

(** [Object.entries(breakdown)], in the order the literal lists the keys. *)
Definition entries (b : Breakdown) : list (string * tally) :=
  map (fun k => (key k, get k b))
      [document; stylesheet; script; image; font; other].

(** [Object.values(breakdown)] *)
Definition values (b : Breakdown) : list tally := map snd (entries b).

(** The two variables the eight passes update. *)
Record state := { breakdown : Breakdown; totalEstimatedSize : Z }.

Definition initial : state :=
  {| breakdown :=
       {| b_document := {| count := 1; size := 0 |};
          b_stylesheet := {| count := 0; size := 0 |};
          b_script := {| count := 0; size := 0 |};
          b_image := {| count := 0; size := 0 |};
          b_font := {| count := 0; size := 0 |};
          b_other := {| count := 0; size := 0 |} |};
     totalEstimatedSize := 0 |}.

(** [selection.each((i, elem) => ...)] for a callback that updates the two
    variables. *)
Definition each (sel : list element) (f : state -> element -> state)
    (st : state) : state :=
  fold_left f sel st.

(** The body shared by five callbacks: count the element under [k] and add
    [estimatedSize] to the tally and to the running total. *)
Definition record (k : ResourceType) (estimatedSize : Z) (st : state) : state :=
  let b := count_add k 1 (breakdown st) in
  let b := size_add k estimatedSize b in
  {| breakdown := b;
     totalEstimatedSize := totalEstimatedSize st + estimatedSize |}.

Definition cssLinks : selector :=
  or_ (and_ (tag "link") (rel_is "stylesheet"))
      (and_ (and_ (tag "link") (rel_is "preload")) (attr_is "as" "style")).

Definition on_cssLink (st : state) (elem : element) : state :=
  let href := attr elem "href" in
  match href with
  | Some h => if truthy href then record stylesheet (estimateCSSSize h) st
              else st
  | None => st
  end.

Definition inlineStyles : selector := tag "style".

Definition on_inlineStyle (st : state) (elem : element) : state :=
  let content := html elem in
  match content with
  | Some c => if truthy content then record stylesheet (byteLength c) st
              else st
  | None => st
  end.

Definition scriptTags : selector := and_ (tag "script") (has_attr "src").

Definition on_scriptTag (st : state) (elem : element) : state :=
  let src := attr elem "src" in
  match src with
  | Some s => if truthy src then record script (estimateJSSize s) st else st
  | None => st
  end.

Definition inlineScripts : selector :=
  and_ (tag "script") (not_ (has_attr "src")).

Definition on_inlineScript (st : state) (elem : element) : state :=
  let content := html elem in
  match content with
  | Some c =>
      if truthy content && negb (trim_is_empty c)
      then record script (byteLength c) st
      else st
  | None => st
  end.

Definition images : selector :=
  or_ (or_ (tag "img") (and_ (inside "picture") (tag "source")))
      (attr_contains "style" "background-image").

Definition on_image (st : state) (elem : element) : state :=
  let src :=
    or_else (or_else (attr elem "src") (attr elem "srcset"))
            (extractBackgroundImage (attr elem "style")) in
  match src with
  | Some s => if truthy src then record image (estimateImageSize s) st
              else st
  | None => st
  end.

Definition fontLinks : selector :=
  or_ (and_ (and_ (tag "link") (rel_is "preload")) (attr_is "as" "font"))
      (and_ (tag "link") (attr_contains "href" "font")).

Definition on_fontLink (st : state) (elem : element) : state :=
  let href := attr elem "href" in
  match href with
  | Some h => if truthy href then record font (estimateFontSize h) st else st
  | None => st
  end.

Definition webFontCSS : selector :=
  or_ (or_ (and_ (tag "link") (attr_contains "href" "fonts.googleapis.com"))
           (and_ (tag "link") (attr_contains "href" "fonts.google.com")))
      (and_ (tag "link") (attr_contains "href" "typekit.net")).

Definition on_webFontCSS (st : state) (elem : element) : state :=
  let b := count_add font 2 (breakdown st) in
  let estimatedSize := 60000 in
  let b := size_add font estimatedSize b in
  {| breakdown := b;
     totalEstimatedSize := totalEstimatedSize st + estimatedSize |}.

Definition otherResources : selector :=
  or_ (or_ (or_ (or_ (or_ (and_ (tag "link") (rel_is "icon"))
                          (and_ (tag "link") (rel_is "manifest")))
                     (tag "embed"))
                (tag "object"))
           (tag "audio"))
      (tag "video").

Definition on_otherResource (st : state) (elem : element) : state :=
  let href := or_else (attr elem "href") (attr elem "src") in
  match href with
  | Some h => if truthy href then record other (estimateOtherResourceSize h) st
              else st
  | None => st
  end.

(** The eight passes, in the order of the source. *)
Definition passes : list (selector * (state -> element -> state)) :=
  [ (cssLinks, on_cssLink);
    (inlineStyles, on_inlineStyle);
    (scriptTags, on_scriptTag);
    (inlineScripts, on_inlineScript);
    (images, on_image);
    (fontLinks, on_fontLink);
    (webFontCSS, on_webFontCSS);
    (otherResources, on_otherResource) ].

Definition run_passes (doc : list node) (st : state) : state :=
  fold_left (fun st p => each (select doc (fst p)) (snd p) st) passes st.

Record result := {
  r_breakdown : Breakdown;
  totalRequests : Z;
  r_totalEstimatedSize : Z
}.

Definition analyzeResourcesWithCheerio (doc : list node) (baseUrl : string)
    : result :=
  let st := run_passes doc initial in
  let totalRequests :=
    fold_left (fun sum item => sum + count item) (values (breakdown st)) 0 in
  {| r_breakdown := breakdown st;
     totalRequests := totalRequests;
     r_totalEstimatedSize := totalEstimatedSize st |}.

End Route.

(** ** Tallies as a commutative monoid, and documents with one more element

    Every callback adds to the two variables amounts that depend on the
    element only, so the outcome of the eight passes is the initial state
    plus, for each element of the document, what that element adds in each
    pass that selects it. *)

Module Algebra.
Import Js Estimate Regex Dom Route.

Definition tplus (a b : tally) : tally :=
  {| count := count a + count b; size := size a + size b |}.

Definition bplus (a b : Breakdown) : Breakdown :=
  {| b_document := tplus (b_document a) (b_document b);
     b_stylesheet := tplus (b_stylesheet a) (b_stylesheet b);
     b_script := tplus (b_script a) (b_script b);
     b_image := tplus (b_image a) (b_image b);
     b_font := tplus (b_font a) (b_font b);
     b_other := tplus (b_other a) (b_other b) |}.

Definition plus (a b : state) : state :=
  {| breakdown := bplus (breakdown a) (breakdown b);
     totalEstimatedSize := totalEstimatedSize a + totalEstimatedSize b |}.

Definition tzero : tally := {| count := 0; size := 0 |}.

Definition zero : state :=
  {| breakdown :=
       {| b_document := tzero; b_stylesheet := tzero; b_script := tzero;
          b_image := tzero; b_font := tzero; b_other := tzero |};
     totalEstimatedSize := 0 |}.

Definition sum (l : list state) : state := fold_right plus zero l.

Definition pass : Type := selector * (state -> element -> state).

(** What [elem] adds in pass [p]: nothing when the selector rejects it. *)
Definition effect (p : pass) (elem : element) : state :=
  if fst p elem then snd p zero elem else zero.

(** What [elem] adds over the passes [ps]. *)
Definition contribution (ps : list pass) (elem : element) : state :=
  sum (map (fun p => effect p elem) ps).

Definition additive (f : state -> element -> state) : Prop :=
  forall st elem, f st elem = plus st (f zero elem).

(** [inserted x doc doc']: [doc'] is [doc] with the node [x] added at some
    place, at any depth, where the parser can put an element: not under a
    [style] or a [script]. *)
Inductive inserted (x : node) : list node -> list node -> Prop :=
| inserted_here : forall before after,
    inserted x (before ++ after) (before ++ x :: after)
| inserted_below : forall before nm at_ ch ch' after,
    raw_text nm = false ->
    inserted x ch ch' ->
    inserted x (before ++ Tag nm at_ ch :: after)
               (before ++ Tag nm at_ ch' :: after).

(** A childless element [nm] under the ancestors [anc]. *)
Definition leaf (nm : string) (at_ : list (string * string))
    (anc : list string) : element :=
  {| name := nm; attribs := at_; inner := EmptyString; ancestors := anc |}.

(** A property of the two variables that no callback breaks. *)
Definition preserved (P : state -> Prop) (ps : list pass) : Prop :=
  Forall (fun p => forall st elem, P st -> P (snd p st elem)) ps.

(** The sum of the count fields of the six categories. *)
Definition sum_counts (b : Breakdown) : Z :=
  count (get document b) + count (get stylesheet b) + count (get script b)
  + count (get image b) + count (get font b) + count (get other b).

(** The sum of the size fields of the six categories. *)
Definition sum_sizes (b : Breakdown) : Z :=
  size (get document b) + size (get stylesheet b) + size (get script b)
  + size (get image b) + size (get font b) + size (get other b).

(** The running total is the sum of the six sizes. *)
Definition balanced (st : state) : Prop :=
  totalEstimatedSize st = sum_sizes (breakdown st).

Definition nonneg (t : tally) : Prop := 0 <= count t /\ 0 <= size t.

Definition all_nonneg (st : state) : Prop :=
  Forall nonneg (values (breakdown st)).

Definition document_fixed (st : state) : Prop :=
  b_document (breakdown st) = {| count := 1; size := 0 |}.

(** The callback [f] leaves every tally but that of [c] as it was. *)
Definition only_touches (c : ResourceType) (f : state -> element -> state)
    : Prop :=
  forall k st elem,
    k <> c -> get k (breakdown (f st elem)) = get k (breakdown st).

End Algebra.

Import Js Estimate Regex Dom Route Algebra.

(** ** Sample documents *)

Definition link (at_ : list (string * string)) : node := Tag "link" at_ [].

Definition img (at_ : list (string * string)) : node := Tag "img" at_ [].

Definition script_src (src : string) : node := Tag "script" [("src", src)] [].

Definition page (head body : list node) : list node :=
  [Tag "html" [] [Tag "head" [] head; Tag "body" [] body]].

(** The link of the Google Fonts example. *)
Definition roboto : list (string * string) :=
  [("href", "https://fonts.googleapis.com/css?family=Roboto")].

(** A Typekit link: its href has no [font] in it. *)
Definition typekit : list (string * string) :=
  [("rel", "stylesheet"); ("href", "https://use.typekit.net/abc1def.css")].

(** An icon-font style sheet. *)
Definition font_awesome : list (string * string) :=
  [("rel", "stylesheet"); ("href", "font-awesome.min.css")].

(** An image with nothing to fetch. *)
Definition bare_img : list (string * string) :=
  [("alt", "logo"); ("style", "border: 0")].

Definition sample_body : list node :=
  [Tag "div" [("style", "background-image:\url\a.png\")]
     [Tag "style" [] [Text "a{}"];
      Tag "picture" [] [Tag "source" [("srcset", "x.webp 2x")] []];
      Tag "script" [] [Text "  "];
      script_src "/static/app.js"]].

(** ** The handler of the cheerio route: [POST]

    What lies outside the program is taken as given: whether [new URL(url)]
    accepts a string, what [fetch] answers, and the tree [cheerio.load]
    builds from the text. *)

Module Handler.
Import Js Estimate Regex Dom Route.

(** The answer of [fetch]: [await response.text()] is [None] when reading
    the body fails. *)
Record Response := {
  ok : bool;
  status : Z;
  statusText : string;
  text : option string
}.

Record Env := {
  (** [new URL(url)] does not throw *)
  valid_url : string -> bool;
  (** [await fetch(url, ...)]; [None] when the promise is rejected *)
  fetch : string -> option Response;
  (** [cheerio.load(html)] *)
  load : string -> list node
}.

(** [await req.json()] followed by the destructuring of [url]: the body
    cannot be read, or its [url] is absent or a string.  (A [url] of
    another JSON type goes through [new URL] and [fetch] as its
    conversion to a string.) *)
Inductive Body :=
| Unreadable
| Url (url : option string).

Record results := {
  url : string;
  loadTime : Z;
  pageSize : Z;
  requestCount : Z;
  resourceBreakdown : Breakdown;
  htmlSize : Z;
  title : string;
  metaDescription : string;
  timestamp : string
}.

Inductive payload :=
| Error (error : string)
| Results (r : results).

(** [NextResponse.json(payload, { status })] *)
Inductive reply := Json (p : payload) (status : Z).

Definition reply_status (r : reply) : Z :=
  match r with Json _ s => s end.

Definition failed : reply :=
  Json (Error
    "Failed to analyze URL. Please check if the URL is accessible and try again.")
    500.

(** [$('title').text()]: the text of every [title] element, one after the
    other (a [title] holds text only). *)
Definition title_text (doc : list node) : string :=
  String.concat EmptyString (map inner (select doc (tag "title"))).

(** [$('meta[name=dq description dq]').attr('content')]: the attribute of
    the first element selected. *)
Definition meta_description (doc : list node) : option string :=
  match select doc (and_ (tag "meta") (attr_is "name" "description")) with
  | [] => None
  | elem :: _ => attr elem "content"
  end.

(** [a || 'text'] *)
Definition or_default (a : option string) (d : string) : string :=
  match or_else a (Some d) with
  | Some s => s
  | None => d
  end.

(** [POST], with the two readings of [Date.now()] and the text of
    [new Date().toISOString()] given. *)
Definition POST (env : Env) (body : Body) (startTime endTime : Z)
    (now : string) : reply :=
  match body with
  | Unreadable => failed
  | Url u =>
      if negb (truthy u) then Json (Error "URL is required") 400
      else
        match u with
        | None => Json (Error "URL is required") 400
        | Some url =>
            if negb (valid_url env url)
            then Json (Error "Invalid URL format") 400
            else
              match fetch env url with
              | None => failed
              | Some response =>
                  if negb (ok response) then failed
                  else
                    match text response with
                    | None => failed
                    | Some html =>
                        let loadTime := endTime - startTime in
                        let doc := load env html in
                        let htmlSize := byteLength html in
                        let resourceAnalysis :=
                          analyzeResourcesWithCheerio doc url in
                        let totalPageSize :=
                          htmlSize + r_totalEstimatedSize resourceAnalysis in
                        Json (Results
                          {| url := url;
                             loadTime := loadTime;
                             pageSize := totalPageSize;
                             requestCount := totalRequests resourceAnalysis;
                             resourceBreakdown := r_breakdown resourceAnalysis;
                             htmlSize := htmlSize;
                             title :=
                               or_default (Some (title_text doc))
                                 "No title found";
                             metaDescription :=
                               or_default (meta_description doc)
                                 "No description found";
                             timestamp := now |}) 200
                    end
              end
        end
  end.

End Handler.

(** ** The browser routes: the [response] listener and the totals

    The two puppeteer handlers share this code.  Sizes come from
    [parseInt], so a size is an integer or NaN; [parseInt] itself is taken
    as given. *)

Module Browser.
Import Js Route.

(** A JavaScript number that is an integer or NaN ([None]). *)
Definition num := option Z.

(** [a + b]: NaN absorbs. *)
Definition nadd (a b : num) : num :=
  match a, b with
  | Some x, Some y => Some (x + y)
  | _, _ => None
  end.

(** What the listener reads off a response: [request.url()],
    [request.method()], [response.status()], the content-length header
    and [request.resourceType()]. *)
Record Response := {
  url : string;
  method : string;
  status : Z;
  contentLength : option string;
  resourceType : string
}.

Record RequestInfo := {
  i_url : string;
  i_method : string;
  i_status : Z;
  size : num;
  i_resourceType : string
}.

Record Tally := { t_count : Z; t_size : num }.

(** [resourceBreakdown], by key. *)
Definition Breakdown := ResourceType -> Tally.

Definition eqb_type (a b : ResourceType) : bool :=
  String.eqb (key a) (key b).

Definition update (k : ResourceType) (t : Tally) (b : Breakdown)
    : Breakdown :=
  fun k' => if eqb_type k k' then t else b k'.

(** [resourceBreakdown[resourceType]] for a string: the tally under that
    key, [undefined] for a string that is none of the six keys. *)
Definition lookup_type (resourceType : string) : option ResourceType :=
  List.find (fun k => String.eqb (key k) resourceType)
    [document; stylesheet; script; image; font; other].

Record state := {
  requests : list RequestInfo;
  resourceBreakdown : Breakdown
}.

Definition initial : state :=
  {| requests := [];
     resourceBreakdown := fun _ => {| t_count := 0; t_size := Some 0 |} |}.

(** [resourceBreakdown[k].count++; resourceBreakdown[k].size += size] *)
Definition tally_response (k : ResourceType) (sz : num) (b : Breakdown)
    : Breakdown :=
  let b := update k {| t_count := t_count (b k) + 1; t_size := t_size (b k) |}
             b in
  update k {| t_count := t_count (b k); t_size := nadd (t_size (b k)) sz |} b.

(** The listener of [page.on("response", ...)]. *)
Definition on_response (parseInt : string -> num) (st : state)
    (response : Response) : state :=
  let size :=
    if truthy (contentLength response)
    then match contentLength response with
         | Some c => parseInt c
         | None => Some 0
         end
    else Some 0 in
  let requests :=
    (requests st
     ++ [{| i_url := url response; i_method := method response;
            i_status := status response; size := size;
            i_resourceType := resourceType response |}])%list in
  let b :=
    match lookup_type (resourceType response) with
    | Some k => tally_response k size (resourceBreakdown st)
    | None => tally_response other size (resourceBreakdown st)
    end in
  {| requests := requests; resourceBreakdown := b |}.

Record results := {
  pageSize : num;
  requestCount : Z;
  r_resourceBreakdown : Breakdown
}.

(** The fields of [results] computed after [page.goto] has returned, the
    listener having run on [responses] in that order. *)
Definition collect (parseInt : string -> num) (responses : list Response)
    : results :=
  let st := fold_left (on_response parseInt) responses initial in
  let totalSize :=
    fold_left (fun sum request => nadd sum (size request)) (requests st)
      (Some 0) in
  {| pageSize := totalSize;
     requestCount := Z.of_nat (List.length (requests st));
     r_resourceBreakdown := resourceBreakdown st |}.

(** The sums over the six keys. *)
Definition sum_counts (b : Breakdown) : Z :=
  t_count (b document) + t_count (b stylesheet) + t_count (b script)
  + t_count (b image) + t_count (b font) + t_count (b other).

Definition sum_sizes (b : Breakdown) : num :=
  nadd (nadd (nadd (nadd (nadd (t_size (b document))
                                (t_size (b stylesheet)))
                          (t_size (b script)))
                    (t_size (b image)))
              (t_size (b font)))
       (t_size (b other)).

End Browser.

(** ** The page: [getPerformanceScore] and the scores written in line *)

Module Ui.

Inductive Variant := default | secondary | destructive | outline.

Record Score := { label : string; variant : Variant }.

(** [getPerformanceScore(metric, value)] of the page with badges.  The
    values it is called with are the loadTime, pageSize and requestCount
    of an answer, integers all three. *)
Definition getPerformanceScore (metric : string) (value : Z) : Score :=
  if String.eqb metric "loadTime" then
    if value <? 1000 then {| label := "Excellent"; variant := default |}
    else if value <? 3000 then {| label := "Good"; variant := secondary |}
    else {| label := "Needs Improvement"; variant := destructive |}
  else if String.eqb metric "pageSize" then
    if value <? 1000000 then {| label := "Excellent"; variant := default |}
    else if value <? 3000000 then {| label := "Good"; variant := secondary |}
    else {| label := "Needs Improvement"; variant := destructive |}
  else if String.eqb metric "requests" then
    if value <? 50 then {| label := "Excellent"; variant := default |}
    else if value <? 100 then {| label := "Good"; variant := secondary |}
    else {| label := "Needs Improvement"; variant := destructive |}
  else {| label := "Unknown"; variant := outline |}.

(** The other page writes the three scores in line, as a class and a
    text each. *)
Definition loadTime_class (v : Z) : string :=
  if v <? 1000 then "text-green-600"
  else if v <? 3000 then "text-yellow-600" else "text-red-600".

Definition loadTime_text (v : Z) : string :=
  if v <? 1000 then "Excellent"
  else if v <? 3000 then "Good" else "Needs Improvement".

Definition pageSize_class (v : Z) : string :=
  if v <? 1000000 then "text-green-600"
  else if v <? 3000000 then "text-yellow-600" else "text-red-600".

Definition pageSize_text (v : Z) : string :=
  if v <? 1000000 then "Excellent"
  else if v <? 3000000 then "Good" else "Needs Improvement".

Definition requestCount_class (v : Z) : string :=
  if v <? 50 then "text-green-600"
  else if v <? 100 then "text-yellow-600" else "text-red-600".

Definition requestCount_text (v : Z) : string :=
  if v <? 50 then "Excellent"
  else if v <? 100 then "Good" else "Needs Improvement".

(** How good a label is: the higher the better. *)
Definition rank (l : string) : Z :=
  if String.eqb l "Excellent" then 2
  else if String.eqb l "Good" then 1
  else 0.

End Ui.

(** ** Cases used to state what single elements add *)

Module Cases.
Import Js Estimate Regex Dom Route Algebra.

(** The element names the eight selectors mention. *)
Definition selected_names : list string :=
  ["link"; "style"; "script"; "img"; "source"; "embed"; "object"; "audio";
   "video"].

(** An element some selector can select: it has one of these names, or a
    style attribute in which [background-image] occurs. *)
Definition looked_at (elem : element) : bool :=
  existsb (String.eqb (name elem)) selected_names
  || attr_contains "style" "background-image" elem.

(** The result for a document in which nothing is counted. *)
Definition baseline : result :=
  {| r_breakdown := breakdown initial;
     totalRequests := 1;
     r_totalEstimatedSize := 0 |}.


(** The six tallies stay within what one resource of their kind can
    weigh. *)
Definition within_table (b : Breakdown) : Prop :=
  count (get stylesheet b) <= size (get stylesheet b)
  /\ count (get script b) <= size (get script b)
  /\ 5000 * count (get image b) <= size (get image b)
     <= 100000 * count (get image b)
  /\ 25000 * count (get font b) <= size (get font b)
     <= 60000 * count (get font b)
  /\ 2000 * count (get other b) <= size (get other b)
     <= 20000 * count (get other b).

End Cases.

(** ** Cases used to state what the browser routes tally *)

Module BrowserCases.
Import Js Route Browser.






End BrowserCases.

(** ** Sample inputs of the handlers *)

Definition sample_html : string :=
  "<html><head><title>Home</title></head><body></body></html>".

(** A world in which every [https:] string is a URL, every fetch is
    answered with [sample_html], and cheerio builds the tree of that
    text. *)
Definition sample_env : Handler.Env :=
  {| Handler.valid_url := fun u => Js.startsWith u "https://";
     Handler.fetch := fun _ =>
       Some {| Handler.ok := true; Handler.status := 200;
               Handler.statusText := "OK";
               Handler.text := Some sample_html |};
     Handler.load := fun _ =>
       page [Tag "title" [] [Text "Home"]; link roboto] [] |}.

(** A [parseInt] for the samples: the digits 0 to 9 alone, NaN for
    anything else. *)
Definition sample_parseInt (s : string) : Browser.num :=
  match s with
  | String c EmptyString =>
      if ((48 <=? nat_of_ascii c) && (nat_of_ascii c <=? 57))%nat
      then Some (Z.of_nat (nat_of_ascii c - 48))
      else None
  | _ => None
  end.

Definition sample_responses : list Browser.Response :=
  [ {| Browser.url := "https://example.com/"; Browser.method := "GET";
       Browser.status := 200; Browser.contentLength := Some "7";
       Browser.resourceType := "document" |};
    {| Browser.url := "https://example.com/api"; Browser.method := "GET";
       Browser.status := 200; Browser.contentLength := None;
       Browser.resourceType := "xhr" |};
    {| Browser.url := "https://example.com/a.js"; Browser.method := "GET";
       Browser.status := 200; Browser.contentLength := Some "chunked";
       Browser.resourceType := "script" |} ].

(** * Properties *)

(** ** The monoid of tallies *)

Lemma tally_eq (a b : tally) : count a = count b -> size a = size b -> a = b.
Proof. destruct a, b; simpl; intros -> ->; reflexivity. Qed.

Lemma Breakdown_eq (a b : Breakdown) :
  (forall k, get k a = get k b) -> a = b.
Proof.
  intros H.
  pose proof (H document); pose proof (H stylesheet); pose proof (H script).
  pose proof (H image); pose proof (H font); pose proof (H other).
  destruct a, b; simpl in *; congruence.
Qed.

Lemma state_eq (a b : state) :
  (forall k, get k (breakdown a) = get k (breakdown b)) ->
  totalEstimatedSize a = totalEstimatedSize b -> a = b.
Proof.
  intros Hb Ht. apply Breakdown_eq in Hb.
  destruct a, b; simpl in *; congruence.
Qed.

Lemma get_bplus k a b : get k (bplus a b) = tplus (get k a) (get k b).
Proof. destruct k; reflexivity. Qed.

Lemma get_plus k a b :
  get k (breakdown (plus a b))
  = tplus (get k (breakdown a)) (get k (breakdown b)).
Proof. apply get_bplus. Qed.

Lemma get_zero k : get k (breakdown zero) = tzero.
Proof. destruct k; reflexivity. Qed.

Ltac by_fields :=
  apply state_eq;
  [ intros k; rewrite ?get_plus, ?get_zero; apply tally_eq; simpl;
    rewrite ?get_plus, ?get_zero; simpl; lia
  | simpl; lia ].

Lemma plus_assoc a b c : plus a (plus b c) = plus (plus a b) c.
Proof. by_fields. Qed.

Lemma plus_comm a b : plus a b = plus b a.
Proof. by_fields. Qed.

Lemma plus_zero_r a : plus a zero = a.
Proof. by_fields. Qed.

Lemma plus_zero_l a : plus zero a = a.
Proof. by_fields. Qed.

Lemma plus_swap a b c d :
  plus (plus a b) (plus c d) = plus (plus a c) (plus b d).
Proof. by_fields. Qed.

Lemma sum_app l1 l2 : sum (l1 ++ l2) = plus (sum l1) (sum l2).
Proof.
  induction l1 as [|x l1 IH]; simpl.
  - now rewrite plus_zero_l.
  - now rewrite IH, plus_assoc.
Qed.

(** Two sums over the same list, added, are the sum of the element-wise
    sums. *)
Lemma sum_map_plus {A} (f g : A -> state) l :
  plus (sum (map f l)) (sum (map g l))
  = sum (map (fun x => plus (f x) (g x)) l).
Proof.
  induction l as [|x l IH]; simpl.
  - apply plus_zero_l.
  - now rewrite plus_swap, IH.
Qed.

(** ** Every callback adds amounts that depend on the element only *)

Lemma record_additive k n :
  forall st, record k n st = plus st (record k n zero).
Proof.
  intros [b t].
  apply state_eq; [intros k'|simpl; lia].
  destruct b as [[] [] [] [] [] []].
  destruct k, k'; apply tally_eq; simpl; lia.
Qed.

Lemma on_webFontCSS_additive : additive on_webFontCSS.
Proof.
  intros [b t] elem.
  apply state_eq; [intros k'|simpl; lia].
  destruct b as [[] [] [] [] [] []].
  destruct k'; apply tally_eq; simpl; lia.
Qed.

Ltac additive_by_cases :=
  intros st elem;
  repeat match goal with
         | |- context [match ?x with _ => _ end] => destruct x
         end;
  first [apply record_additive | symmetry; apply plus_zero_r].

Lemma on_cssLink_additive : additive on_cssLink.
Proof. unfold on_cssLink. additive_by_cases. Qed.

Lemma on_inlineStyle_additive : additive on_inlineStyle.
Proof. unfold on_inlineStyle. additive_by_cases. Qed.

Lemma on_scriptTag_additive : additive on_scriptTag.
Proof. unfold on_scriptTag. additive_by_cases. Qed.

Lemma on_inlineScript_additive : additive on_inlineScript.
Proof. unfold on_inlineScript. additive_by_cases. Qed.

Lemma on_image_additive : additive on_image.
Proof. unfold on_image. additive_by_cases. Qed.

Lemma on_fontLink_additive : additive on_fontLink.
Proof. unfold on_fontLink. additive_by_cases. Qed.

Lemma on_otherResource_additive : additive on_otherResource.
Proof. unfold on_otherResource. additive_by_cases. Qed.

Lemma passes_additive : Forall (fun p : pass => additive (snd p)) passes.
Proof.
  unfold passes.
  repeat constructor; simpl;
    auto using on_cssLink_additive, on_inlineStyle_additive,
      on_scriptTag_additive, on_inlineScript_additive, on_image_additive,
      on_fontLink_additive, on_webFontCSS_additive,
      on_otherResource_additive.
Qed.

(** ** The passes as one sum over the elements *)

Lemma each_filter (p : selector) f l :
  additive f ->
  forall st, each (filter p l) f st = plus st (sum (map (effect (p, f)) l)).
Proof.
  intros Hf. unfold each, effect. simpl fst. simpl snd.
  induction l as [|x l IH]; intros st; simpl.
  - now rewrite plus_zero_r.
  - destruct (p x); simpl.
    + rewrite IH, (Hf st x). now rewrite plus_assoc.
    + now rewrite IH, plus_zero_l.
Qed.

Lemma sum_map_zero {A} (l : list A) : sum (map (fun _ => zero) l) = zero.
Proof.
  induction l as [|x l IH]; simpl; [reflexivity|].
  now rewrite IH, plus_zero_l.
Qed.

Lemma passes_as_sum (ps : list pass) l :
  Forall (fun p : pass => additive (snd p)) ps ->
  forall st,
    fold_left (fun st p => each (filter (fst p) l) (snd p) st) ps st
    = plus st (sum (map (contribution ps) l)).
Proof.
  induction 1 as [|[p f] ps Hf _ IH]; intros st; simpl.
  - unfold contribution. simpl. now rewrite sum_map_zero, plus_zero_r.
  - rewrite IH, each_filter by exact Hf.
    rewrite <- plus_assoc, sum_map_plus. reflexivity.
Qed.

Lemma run_passes_sum doc st :
  run_passes doc st
  = plus st (sum (map (contribution passes) (elements [] doc))).
Proof. apply (passes_as_sum passes _ passes_additive). Qed.

(** ** Adding one element to a document *)

Lemma text_of_app l1 l2 : text_of (l1 ++ l2) = text_of l1 ++ text_of l2.
Proof.
  induction l1 as [|[d|nm a ch] l1 IH]; simpl; auto.
  rewrite IH. clear. induction d; simpl; congruence.
Qed.

Lemma text_of_inserted nm at_ ch doc doc' :
  inserted (Tag nm at_ ch) doc doc' -> text_of doc' = text_of doc.
Proof.
  destruct 1; rewrite !text_of_app; reflexivity.
Qed.

Lemma elements_inserted xn xa xc doc doc' :
  inserted (Tag xn xa xc) doc doc' ->
  forall anc, exists l1 l2 anc',
    elements anc doc = (l1 ++ l2)%list
    /\ elements anc doc'
       = (l1 ++ elements_of anc' (Tag xn xa xc) ++ l2)%list.
Proof.
  unfold elements.
  induction 1 as [before after | before nm at_ ch ch' after Hraw Hins IH];
    intros anc.
  - exists (flat_map (elements_of anc) before),
      (flat_map (elements_of anc) after), anc.
    rewrite !flat_map_app. simpl. auto.
  - destruct (IH (nm :: anc)) as (l1 & l2 & anc' & E & E').
    exists
      (flat_map (elements_of anc) before
       ++ {| name := nm; attribs := at_; inner := text_of ch;
             ancestors := anc |} :: l1)%list,
      (l2 ++ flat_map (elements_of anc) after)%list, anc'.
    rewrite !flat_map_app. simpl flat_map.
    rewrite (text_of_inserted _ _ _ _ _ Hins), E, E'.
    split; rewrite <- ?app_assoc; simpl; rewrite <- ?app_assoc;
      reflexivity.
Qed.

(** A document with one more childless element [nm] ends the passes with
    what that element contributes added. *)
Lemma run_passes_inserted nm at_ doc doc' :
  inserted (Tag nm at_ []) doc doc' ->
  exists anc,
    run_passes doc' initial
    = plus (run_passes doc initial) (contribution passes (leaf nm at_ anc)).
Proof.
  intros Hins.
  destruct (elements_inserted _ _ _ _ _ Hins []) as (l1 & l2 & anc & E & E').
  exists anc. rewrite !run_passes_sum, E, E'. simpl.
  rewrite !map_app, !sum_app. simpl.
  now rewrite <- !plus_assoc, (plus_comm (contribution _ _)).
Qed.

(** ** Properties no callback breaks *)

Lemma each_preserves (P : state -> Prop) f l :
  (forall st elem, P st -> P (f st elem)) ->
  forall st, P st -> P (each l f st).
Proof.
  intros Hf. unfold each.
  induction l as [|x l IH]; intros st H; simpl; auto.
Qed.

Lemma run_passes_preserves (P : state -> Prop) doc :
  preserved P passes -> forall st, P st -> P (run_passes doc st).
Proof.
  unfold run_passes, preserved.
  induction 1 as [|p ps Hp _ IH]; intros st H; simpl; auto.
  apply IH, each_preserves; auto.
Qed.

Ltac by_callback_cases lem :=
  intros st elem H;
  repeat match goal with
         | |- context [match ?x with _ => _ end] => destruct x
         end;
  first [assumption | apply lem; assumption].

Lemma record_balanced k n st : balanced st -> balanced (record k n st).
Proof.
  unfold balanced, sum_sizes. destruct st as [[[] [] [] [] [] []] t].
  destruct k; simpl; lia.
Qed.

Lemma passes_balanced : preserved balanced passes.
Proof.
  unfold preserved, passes.
  repeat constructor; simpl;
    try (unfold on_cssLink, on_inlineStyle, on_scriptTag, on_inlineScript,
           on_image, on_fontLink, on_otherResource;
         by_callback_cases record_balanced).
  intros [[[] [] [] [] [] []] t] elem. unfold balanced, sum_sizes. simpl.
  lia.
Qed.

Lemma record_document_fixed k n st :
  k <> document -> document_fixed st -> document_fixed (record k n st).
Proof.
  unfold document_fixed. destruct st as [[[] [] [] [] [] []] t].
  destruct k; simpl; congruence.
Qed.

Lemma passes_document_fixed : preserved document_fixed passes.
Proof.
  unfold preserved, passes.
  repeat constructor; simpl;
    try (unfold on_cssLink, on_inlineStyle, on_scriptTag, on_inlineScript,
           on_image, on_fontLink, on_otherResource;
         intros st elem H;
         repeat match goal with
                | |- context [match ?x with _ => _ end] => destruct x
                end;
         first [assumption
               | apply record_document_fixed; [discriminate | assumption]]).
Qed.

Lemma all_nonneg_get st :
  all_nonneg st <-> forall k, nonneg (get k (breakdown st)).
Proof.
  unfold all_nonneg, values, entries. simpl. split.
  - intros H k. repeat (apply Forall_cons_iff in H; destruct H as [? H]).
    destruct k; assumption.
  - intros H.
    pose proof (H document); pose proof (H stylesheet); pose proof (H script).
    pose proof (H image); pose proof (H font); pose proof (H other).
    repeat (apply Forall_cons; [assumption|]). constructor.
Qed.

Lemma record_nonneg k n st :
  0 <= n -> all_nonneg st -> all_nonneg (record k n st).
Proof.
  rewrite !all_nonneg_get. intros Hn H k'.
  pose proof (H k) as Hk. pose proof (H k') as Hk'.
  unfold nonneg in *. destruct st as [[[] [] [] [] [] []] t].
  destruct k, k'; simpl in *; lia.
Qed.

Lemma estimateCSSSize_nonneg href : 0 <= estimateCSSSize href.
Proof.
  unfold estimateCSSSize.
  repeat match goal with |- context [if ?c then _ else _] => destruct c end;
    lia.
Qed.

Lemma estimateJSSize_nonneg src : 0 <= estimateJSSize src.
Proof.
  unfold estimateJSSize.
  repeat match goal with |- context [if ?c then _ else _] => destruct c end;
    lia.
Qed.

Lemma estimateImageSize_nonneg src : 0 <= estimateImageSize src.
Proof.
  unfold estimateImageSize. cbv zeta.
  repeat match goal with |- context [if ?c then _ else _] => destruct c end;
    lia.
Qed.

Lemma estimateFontSize_nonneg href : 0 <= estimateFontSize href.
Proof.
  unfold estimateFontSize. cbv zeta.
  repeat match goal with |- context [if ?c then _ else _] => destruct c end;
    lia.
Qed.

Lemma estimateOtherResourceSize_nonneg href :
  0 <= estimateOtherResourceSize href.
Proof.
  unfold estimateOtherResourceSize.
  repeat match goal with |- context [if ?c then _ else _] => destruct c end;
    lia.
Qed.

Lemma byteLength_nonneg s : 0 <= byteLength s.
Proof. unfold byteLength. lia. Qed.

Lemma passes_nonneg : preserved all_nonneg passes.
Proof.
  unfold preserved, passes.
  repeat apply Forall_cons; try apply Forall_nil; simpl;
    try (unfold on_cssLink, on_inlineStyle, on_scriptTag, on_inlineScript,
           on_image, on_fontLink, on_otherResource;
         intros st elem H;
         repeat match goal with
                | |- context [match ?x with _ => _ end] => destruct x
                end;
         first [assumption
               | apply record_nonneg;
                 auto using estimateCSSSize_nonneg, estimateJSSize_nonneg,
                   estimateImageSize_nonneg, estimateFontSize_nonneg,
                   estimateOtherResourceSize_nonneg, byteLength_nonneg]).
  intros st elem. rewrite !all_nonneg_get. intros H k'.
  pose proof (H font) as Hk. pose proof (H k') as Hk'.
  unfold nonneg in *. destruct st as [[[] [] [] [] [] []] t].
  destruct k'; simpl in *; lia.
Qed.

(** ** Which tally a callback touches *)

Lemma record_elsewhere k c n st :
  k <> c -> get k (breakdown (record c n st)) = get k (breakdown st).
Proof. destruct k, c; intros H; try reflexivity; congruence. Qed.

Lemma record_there c n st :
  get c (breakdown (record c n st))
  = {| count := count (get c (breakdown st)) + 1;
       size := size (get c (breakdown st)) + n |}.
Proof. destruct c; reflexivity. Qed.

Ltac touches_by_cases :=
  intros k st elem Hk;
  repeat match goal with
         | |- context [match ?x with _ => _ end] => destruct x
         end;
  first [reflexivity | apply record_elsewhere; assumption].

Lemma on_cssLink_touches : only_touches stylesheet on_cssLink.
Proof. unfold on_cssLink. touches_by_cases. Qed.

Lemma on_inlineStyle_touches : only_touches stylesheet on_inlineStyle.
Proof. unfold on_inlineStyle. touches_by_cases. Qed.

Lemma on_scriptTag_touches : only_touches script on_scriptTag.
Proof. unfold on_scriptTag. touches_by_cases. Qed.

Lemma on_inlineScript_touches : only_touches script on_inlineScript.
Proof. unfold on_inlineScript. touches_by_cases. Qed.

Lemma on_image_touches : only_touches image on_image.
Proof. unfold on_image. touches_by_cases. Qed.

Lemma on_fontLink_touches : only_touches font on_fontLink.
Proof. unfold on_fontLink. touches_by_cases. Qed.

Lemma on_webFontCSS_touches : only_touches font on_webFontCSS.
Proof. intros k st elem Hk. destruct k; try reflexivity; congruence. Qed.

Lemma on_otherResource_touches : only_touches other on_otherResource.
Proof. unfold on_otherResource. touches_by_cases. Qed.

Lemma effect_elsewhere c k p f elem :
  only_touches c f -> k <> c -> get k (breakdown (effect (p, f) elem)) = tzero.
Proof.
  intros Hf Hk. unfold effect. simpl.
  destruct (p elem); [rewrite (Hf k zero elem Hk)|]; apply get_zero.
Qed.

Lemma contribution_passes elem :
  contribution passes elem
  = plus (effect (cssLinks, on_cssLink) elem)
      (plus (effect (inlineStyles, on_inlineStyle) elem)
         (plus (effect (scriptTags, on_scriptTag) elem)
            (plus (effect (inlineScripts, on_inlineScript) elem)
               (plus (effect (images, on_image) elem)
                  (plus (effect (fontLinks, on_fontLink) elem)
                     (plus (effect (webFontCSS, on_webFontCSS) elem)
                        (effect (otherResources, on_otherResource) elem))))))).
Proof. unfold contribution, passes. simpl. now rewrite plus_zero_r. Qed.

Lemma tplus_zero_l t : tplus tzero t = t.
Proof. apply tally_eq; simpl; lia. Qed.

Lemma tplus_zero_r t : tplus t tzero = t.
Proof. apply tally_eq; simpl; lia. Qed.

(** Only the two font passes add to the font tally. *)
Lemma contribution_font elem :
  get font (breakdown (contribution passes elem))
  = tplus (get font (breakdown (effect (fontLinks, on_fontLink) elem)))
          (get font (breakdown (effect (webFontCSS, on_webFontCSS) elem))).
Proof.
  rewrite contribution_passes, !get_plus.
  rewrite (effect_elsewhere _ _ _ _ _ on_cssLink_touches) by discriminate.
  rewrite (effect_elsewhere _ _ _ _ _ on_inlineStyle_touches) by discriminate.
  rewrite (effect_elsewhere _ _ _ _ _ on_scriptTag_touches) by discriminate.
  rewrite (effect_elsewhere _ _ _ _ _ on_inlineScript_touches) by discriminate.
  rewrite (effect_elsewhere _ _ _ _ _ on_image_touches) by discriminate.
  rewrite (effect_elsewhere _ _ _ _ _ on_otherResource_touches) by discriminate.
  now rewrite !tplus_zero_l, tplus_zero_r.
Qed.

(** Only the two stylesheet passes add to the stylesheet tally. *)
Lemma contribution_stylesheet elem :
  get stylesheet (breakdown (contribution passes elem))
  = tplus (get stylesheet (breakdown (effect (cssLinks, on_cssLink) elem)))
          (get stylesheet
             (breakdown (effect (inlineStyles, on_inlineStyle) elem))).
Proof.
  rewrite contribution_passes, !get_plus.
  rewrite (effect_elsewhere _ _ _ _ _ on_scriptTag_touches) by discriminate.
  rewrite (effect_elsewhere _ _ _ _ _ on_inlineScript_touches) by discriminate.
  rewrite (effect_elsewhere _ _ _ _ _ on_image_touches) by discriminate.
  rewrite (effect_elsewhere _ _ _ _ _ on_fontLink_touches) by discriminate.
  rewrite (effect_elsewhere _ _ _ _ _ on_webFontCSS_touches) by discriminate.
  rewrite (effect_elsewhere _ _ _ _ _ on_otherResource_touches) by discriminate.
  now rewrite !tplus_zero_r.
Qed.

(** The tallies of a document with one more childless element. *)
Lemma analysis_inserted nm at_ doc doc' baseUrl :
  inserted (Tag nm at_ []) doc doc' ->
  exists anc, forall k,
    get k (r_breakdown (analyzeResourcesWithCheerio doc' baseUrl))
    = tplus (get k (r_breakdown (analyzeResourcesWithCheerio doc baseUrl)))
        (get k (breakdown (contribution passes (leaf nm at_ anc)))).
Proof.
  intros Hins. destruct (run_passes_inserted _ _ _ _ Hins) as [anc E].
  exists anc. intros k. unfold analyzeResourcesWithCheerio. simpl r_breakdown.
  rewrite E. apply get_plus.
Qed.

Lemma includes_nonempty s sub :
  includes s sub = true -> sub <> EmptyString -> truthy (Some s) = true.
Proof.
  destruct s; simpl; auto. destruct sub; simpl; intros; congruence.
Qed.

(** ** What [extractBackgroundImage] needs to find *)

Lemma all_ascii_complete x : In x (map ascii_of_nat (seq 0 256)).
Proof.
  rewrite <- (ascii_nat_embedding x). apply in_map, in_seq.
  pose proof (nat_ascii_bounded x). lia.
Qed.

(** Under the [i] flag a pattern character that is not an upper-case letter
    matches the characters that lower-case to it. *)
Lemma char_eq_lower p x :
  char_eq true p x = true -> lower_char p = p -> lower_char x = p.
Proof.
  intros H Hp.
  assert (A : forallb (fun p => forallb (fun x =>
                implb (char_eq true p x && Ascii.eqb (lower_char p) p)
                      (Ascii.eqb (lower_char x) p))
                (map ascii_of_nat (seq 0 256)))
              (map ascii_of_nat (seq 0 256)) = true)
    by (vm_compute; reflexivity).
  rewrite forallb_forall in A. specialize (A p (all_ascii_complete p)).
  rewrite forallb_forall in A. specialize (A x (all_ascii_complete x)).
  rewrite H, Hp, Ascii.eqb_refl in A. simpl in A.
  now apply Ascii.eqb_eq in A.
Qed.

(** A match of a pattern that begins with the text [w] begins with [w], up
    to the case of the letters. *)
Lemma run_lit w r : forall s pos c c',
  toLowerCase w = w ->
  run true (lit w ++ r)%list s pos c = Some c' ->
  startsWith (toLowerCase s) w = true.
Proof.
  induction w as [|a w IH]; intros s pos c c' Hw H; [reflexivity|].
  simpl in Hw. injection Hw as Ha Hw.
  unfold lit in H. simpl in H. unfold one in H.
  destruct s as [|x s]; [discriminate|].
  unfold atom_matches in H.
  destruct (char_eq true a x) eqn:E; [|discriminate].
  simpl. rewrite (char_eq_lower a x E Ha), Ascii.eqb_refl. simpl.
  apply (IH s (S pos) c c' Hw H).
Qed.

Lemma search_lit w r : forall s pos c,
  toLowerCase w = w ->
  search true (lit w ++ r)%list s pos = Some c ->
  includes (toLowerCase s) w = true.
Proof.
  induction s as [|x s IH]; intros pos c Hw H; simpl in H.
  - destruct (run true (lit w ++ r)%list EmptyString pos no_caps) eqn:E;
      [|discriminate].
    apply (run_lit w r _ _ _ _ Hw) in E. simpl in *. now rewrite E.
  - destruct (run true (lit w ++ r)%list (String x s) pos no_caps) eqn:E.
    + apply (run_lit w r _ _ _ _ Hw) in E.
      change (includes (toLowerCase (String x s)) w)
        with (startsWith (toLowerCase (String x s)) w
              || includes (toLowerCase s) w).
      now rewrite E.
    + change (includes (toLowerCase (String x s)) w)
        with (startsWith (toLowerCase (String x s)) w
              || includes (toLowerCase s) w).
      rewrite (IH _ _ Hw H). apply orb_true_r.
Qed.

(** A style in which [background-image:] does not occur, in any case of the
    letters, has no URL for [extractBackgroundImage]. *)
Lemma extractBackgroundImage_needs_declaration style :
  includes (toLowerCase style) "background-image:" = false ->
  extractBackgroundImage (Some style) = None.
Proof.
  intros H. unfold extractBackgroundImage.
  destruct (truthy (Some style)); [|reflexivity]. simpl negb. cbv iota.
  unfold match_group.
  destruct (search true background_image_re style 0) eqn:E; [|reflexivity].
  unfold background_image_re in E.
  apply search_lit in E; [congruence | reflexivity].
Qed.

(** * Properties of the estimator *)

(** C2: the returned totalRequests is the sum of the six counts of the
    returned breakdown, and the returned totalEstimatedSize is the sum of its
    six sizes, the size of document being 0. *)
Theorem totals_are_sums_of_breakdown doc baseUrl :
  totalRequests (analyzeResourcesWithCheerio doc baseUrl)
  = sum_counts (r_breakdown (analyzeResourcesWithCheerio doc baseUrl))
  /\ r_totalEstimatedSize (analyzeResourcesWithCheerio doc baseUrl)
     = sum_sizes (r_breakdown (analyzeResourcesWithCheerio doc baseUrl))
  /\ size (get document
             (r_breakdown (analyzeResourcesWithCheerio doc baseUrl)))
     = 0.
Proof.
  unfold analyzeResourcesWithCheerio. simpl r_breakdown.
  simpl totalRequests. simpl r_totalEstimatedSize.
  split; [unfold sum_counts; simpl; lia|]. split.
  - apply (run_passes_preserves balanced doc passes_balanced initial).
    reflexivity.
  - pose proof (run_passes_preserves document_fixed doc
                  passes_document_fixed initial eq_refl) as H.
    unfold document_fixed in H. simpl. now rewrite H.
Qed.

(** C4: for every document and baseUrl the returned breakdown has
    document.count = 1 and document.size = 0. *)
Theorem document_tally_is_one_zero doc baseUrl :
  count (get document (r_breakdown (analyzeResourcesWithCheerio doc baseUrl)))
  = 1
  /\ size (get document (r_breakdown (analyzeResourcesWithCheerio doc baseUrl)))
     = 0.
Proof.
  pose proof (run_passes_preserves document_fixed doc
                passes_document_fixed initial eq_refl) as H.
  unfold document_fixed in H.
  unfold analyzeResourcesWithCheerio. simpl. now rewrite H.
Qed.



(** C6: the returned breakdown has exactly the six keys document, stylesheet,
    script, image, font and other, and every count and every size in it is a
    non-negative integer. *)
Theorem breakdown_six_keys_nonnegative doc baseUrl :
  map fst (entries (r_breakdown (analyzeResourcesWithCheerio doc baseUrl)))
  = ["document"; "stylesheet"; "script"; "image"; "font"; "other"]
  /\ Forall (fun t => 0 <= count t /\ 0 <= size t)
       (values (r_breakdown (analyzeResourcesWithCheerio doc baseUrl))).
Proof.
  split; [reflexivity|].
  apply (run_passes_preserves all_nonneg doc passes_nonneg initial).
  unfold all_nonneg, nonneg. simpl. repeat constructor; simpl; lia.
Qed.

(** C9: the result does not depend on baseUrl: the same document analysed
    under two base URLs gives the same result. *)
Theorem baseUrl_is_ignored doc b1 b2 :
  analyzeResourcesWithCheerio doc b1 = analyzeResourcesWithCheerio doc b2.
Proof. reflexivity. Qed.

(** C7: an img element with no src, no srcset and no background-image URL
    that [extractBackgroundImage] finds in its style adds nothing: wherever
    it stands in the document, the result is that of the document without
    it. *)
Theorem bare_img_contributes_nothing doc doc' at_ baseUrl :
  inserted (img at_) doc doc' ->
  lookup "src" at_ = None ->
  lookup "srcset" at_ = None ->
  extractBackgroundImage (lookup "style" at_) = None ->
  analyzeResourcesWithCheerio doc' baseUrl
  = analyzeResourcesWithCheerio doc baseUrl.
Proof.
  intros Hins Hsrc Hsrcset Hstyle.
  destruct (run_passes_inserted _ _ _ _ Hins) as [anc E].
  assert (Z : contribution passes (leaf "img" at_ anc) = zero).
  { rewrite contribution_passes.
    unfold effect, cssLinks, inlineStyles, scriptTags, inlineScripts,
      fontLinks, webFontCSS, otherResources, images, or_, and_, tag. simpl.
    unfold on_image, attr. simpl.
    rewrite Hsrc, Hsrcset, Hstyle. simpl.
    reflexivity. }
  unfold analyzeResourcesWithCheerio.
  now rewrite E, Z, plus_zero_r.
Qed.

Lemma bare_img_contributes_nothing_witness :
  inserted (img bare_img) (page [link roboto] sample_body)
    (page [link roboto] (img bare_img :: sample_body))
  /\ analyzeResourcesWithCheerio
       (page [link roboto] (img bare_img :: sample_body))
       "https://example.com/"
     = analyzeResourcesWithCheerio (page [link roboto] sample_body)
         "https://example.com/".
Proof.
  assert (H : inserted (img bare_img) (page [link roboto] sample_body)
                (page [link roboto] (img bare_img :: sample_body))).
  { apply (inserted_below _ [] "html" [] _ _ [] eq_refl).
    apply (inserted_below _ [Tag "head" [] [link roboto]] "body" [] _ _ []
             eq_refl).
    apply (inserted_here _ [] sample_body). }
  split; [exact H|].
  apply (bare_img_contributes_nothing _ _ bare_img "https://example.com/" H);
    reflexivity.
Defined.

(** C1, as the code has it: a link whose href contains fonts.googleapis.com,
    fonts.google.com or typekit.net is selected by the web-font rule, whose
    callback adds 2 to font.count and 60000 to font.size; in the result this
    comes on top of what the direct font-link rule adds for the same link
    (1 and its font size estimate when that rule selects it, nothing
    otherwise). *)
Theorem web_font_link_adds_2_and_60000 doc doc' at_ href baseUrl :
  inserted (link at_) doc doc' ->
  lookup "href" at_ = Some href ->
  includes href "fonts.googleapis.com" || includes href "fonts.google.com"
  || includes href "typekit.net" = true ->
  (forall anc st,
      webFontCSS (leaf "link" at_ anc) = true
      /\ get font (breakdown (on_webFontCSS st (leaf "link" at_ anc)))
         = {| count := count (get font (breakdown st)) + 2;
              size := size (get font (breakdown st)) + 60000 |})
  /\ count (get font (r_breakdown (analyzeResourcesWithCheerio doc' baseUrl)))
     = count (get font (r_breakdown (analyzeResourcesWithCheerio doc baseUrl)))
       + (if fontLinks (leaf "link" at_ []) then 1 else 0) + 2
  /\ size (get font (r_breakdown (analyzeResourcesWithCheerio doc' baseUrl)))
     = size (get font (r_breakdown (analyzeResourcesWithCheerio doc baseUrl)))
       + (if fontLinks (leaf "link" at_ []) then estimateFontSize href else 0)
       + 60000.
Proof.
  intros Hins Hhref Hweb.
  assert (Hsel : forall anc, webFontCSS (leaf "link" at_ anc) = true).
  { intros anc. unfold webFontCSS, or_, and_, tag, attr_contains, attr.
    simpl. now rewrite Hhref. }
  assert (Htruthy : truthy (Some href) = true).
  { destruct href; [discriminate Hweb | reflexivity]. }
  split; [intros anc st; split; [apply Hsel | reflexivity]|].
  destruct (analysis_inserted _ _ _ _ baseUrl Hins) as [anc H].
  rewrite (H font), contribution_font. unfold effect. simpl fst. simpl snd.
  rewrite Hsel.
  change (fontLinks (leaf "link" at_ anc))
    with (fontLinks (leaf "link" at_ [])).
  destruct (fontLinks (leaf "link" at_ [])).
  - unfold on_fontLink, attr. simpl attribs. rewrite Hhref, Htruthy.
    rewrite record_there. simpl. lia.
  - simpl. lia.
Qed.

Lemma web_font_link_adds_2_and_60000_witness :
  inserted (link roboto) (page [] sample_body) (page [link roboto] sample_body)
  /\ get font (r_breakdown (analyzeResourcesWithCheerio (page [] sample_body)
                              "https://example.com/"))
     = {| count := 0; size := 0 |}
  /\ get font (r_breakdown (analyzeResourcesWithCheerio
                              (page [link roboto] sample_body)
                              "https://example.com/"))
     = {| count := 3; size := 90000 |}.
Proof.
  assert (H : inserted (link roboto) (page [] sample_body)
                (page [link roboto] sample_body)).
  { apply (inserted_below _ [] "html" [] _ _ [] eq_refl).
    apply (inserted_below _ [] "head" [] _ _ [Tag "body" [] sample_body]
             eq_refl).
    apply (inserted_here _ [] []). }
  split; [exact H|]. split; [reflexivity|].
  destruct (web_font_link_adds_2_and_60000 _ _ roboto
              "https://fonts.googleapis.com/css?family=Roboto"
              "https://example.com/" H eq_refl eq_refl) as (_ & Hc & Hs).
  apply tally_eq; [rewrite Hc | rewrite Hs]; reflexivity.
Defined.

(** C1 fails as stated.  The Typekit link is selected by the web-font rule
    and not by the direct font-link rule; the rule's callback adds 60000 to
    font.size, not 120000, and the document made of that link ends with
    font.count = 2 and font.size = 60000. *)
Lemma web_font_size_is_not_120000 :
  webFontCSS (leaf "link" typekit []) = true
  /\ fontLinks (leaf "link" typekit []) = false
  /\ size (get font (breakdown (on_webFontCSS initial
                                  (leaf "link" typekit []))))
     <> size (get font (breakdown initial)) + 120000
  /\ get font (r_breakdown (analyzeResourcesWithCheerio [link typekit]
                              "https://example.com/"))
     = {| count := 2; size := 60000 |}.
Proof.
  split; [reflexivity|]. split; [reflexivity|].
  split; [discriminate | reflexivity].
Qed.

(** C10: a link with rel=stylesheet whose href contains font is tallied
    twice: the style sheet rule adds 1 to stylesheet.count and its CSS size
    estimate to stylesheet.size, and the direct font-link rule adds 1 to
    font.count and its font size estimate to font.size (the web-font rule
    adds its own 2 and 60000 when it selects the link too). *)
Theorem stylesheet_font_link_tallied_twice doc doc' at_ href baseUrl :
  inserted (link at_) doc doc' ->
  lookup "rel" at_ = Some "stylesheet" ->
  lookup "href" at_ = Some href ->
  includes href "font" = true ->
  (forall anc,
      cssLinks (leaf "link" at_ anc) = true
      /\ fontLinks (leaf "link" at_ anc) = true)
  /\ get stylesheet (r_breakdown (analyzeResourcesWithCheerio doc' baseUrl))
     = {| count :=
            count (get stylesheet
                     (r_breakdown (analyzeResourcesWithCheerio doc baseUrl)))
            + 1;
          size :=
            size (get stylesheet
                    (r_breakdown (analyzeResourcesWithCheerio doc baseUrl)))
            + estimateCSSSize href |}
  /\ get font (r_breakdown (analyzeResourcesWithCheerio doc' baseUrl))
     = {| count :=
            count (get font
                     (r_breakdown (analyzeResourcesWithCheerio doc baseUrl)))
            + 1 + (if webFontCSS (leaf "link" at_ []) then 2 else 0);
          size :=
            size (get font
                    (r_breakdown (analyzeResourcesWithCheerio doc baseUrl)))
            + estimateFontSize href
            + (if webFontCSS (leaf "link" at_ []) then 60000 else 0) |}.
Proof.
  intros Hins Hrel Hhref Hfont.
  assert (Hcss : forall anc, cssLinks (leaf "link" at_ anc) = true).
  { intros anc. unfold cssLinks, or_, and_, tag, rel_is, attr. simpl.
    now rewrite Hrel. }
  assert (Hsel : forall anc, fontLinks (leaf "link" at_ anc) = true).
  { intros anc. unfold fontLinks, or_, and_, tag, attr_contains, attr. simpl.
    rewrite Hhref, Hfont. apply orb_true_r. }
  assert (Htruthy : truthy (Some href) = true).
  { apply (includes_nonempty href "font" Hfont). discriminate. }
  split; [intros anc; split; [apply Hcss | apply Hsel]|].
  destruct (analysis_inserted _ _ _ _ baseUrl Hins) as [anc H].
  rewrite (H stylesheet), (H font), contribution_font, contribution_stylesheet.
  unfold effect. simpl fst. simpl snd. rewrite Hcss, Hsel.
  change (inlineStyles (leaf "link" at_ anc)) with false. cbv iota.
  change (webFontCSS (leaf "link" at_ anc))
    with (webFontCSS (leaf "link" at_ [])).
  unfold on_cssLink, on_fontLink, attr. simpl attribs.
  rewrite Hhref, Htruthy, !record_there.
  split.
  - apply tally_eq; simpl; lia.
  - destruct (webFontCSS (leaf "link" at_ [])); apply tally_eq; simpl; lia.
Qed.

Lemma stylesheet_font_link_tallied_twice_witness :
  inserted (link font_awesome) (page [] sample_body)
    (page [link font_awesome] sample_body)
  /\ get stylesheet
       (r_breakdown (analyzeResourcesWithCheerio
                       (page [link font_awesome] sample_body)
                       "https://example.com/"))
     = {| count := 2; size := 75003 |}
  /\ get font
       (r_breakdown (analyzeResourcesWithCheerio
                       (page [link font_awesome] sample_body)
                       "https://example.com/"))
     = {| count := 1; size := 30000 |}.
Proof.
  assert (H : inserted (link font_awesome) (page [] sample_body)
                (page [link font_awesome] sample_body)).
  { apply (inserted_below _ [] "html" [] _ _ [] eq_refl).
    apply (inserted_below _ [] "head" [] _ _ [Tag "body" [] sample_body]
             eq_refl).
    apply (inserted_here _ [] []). }
  split; [exact H|].
  destruct (stylesheet_font_link_tallied_twice _ _ font_awesome
              "font-awesome.min.css" "https://example.com/" H
              eq_refl eq_refl eq_refl) as (_ & Hs & Hf).
  rewrite Hs, Hf. split; reflexivity.
Defined.

(** ** The script size table *)





(** ** The extension of a URL *)

Lemma includes_char_cons a c s :
  includes (String c s) (String a EmptyString)
  = Ascii.eqb a c || includes s (String a EmptyString).
Proof. simpl. now rewrite andb_true_r. Qed.

Lemma split_no_sep a s :
  includes s (String a EmptyString) = false -> split a s = [s].
Proof.
  induction s as [|c s IH]; [reflexivity|].
  rewrite includes_char_cons. intros H. apply orb_false_elim in H as [Hc Hs].
  simpl. rewrite Ascii.eqb_sym, Hc, (IH Hs). reflexivity.
Qed.

Lemma split_nonempty a s : split a s <> [].
Proof.
  destruct s as [|c s]; simpl; [discriminate|].
  destruct (Ascii.eqb c a); [discriminate|].
  destruct (split a s); discriminate.
Qed.

Lemma pop_app {A} (l l' : list A) : l' <> [] -> pop (l ++ l') = pop l'.
Proof.
  intros Hl'. induction l as [|x l IH]; [reflexivity|].
  simpl. rewrite IH. destruct (l ++ l')%list eqn:E; [|reflexivity].
  apply app_eq_nil in E. tauto.
Qed.

(** Splitting at a separator: the segments of what follows it come last. *)
Lemma split_app_sep a p r :
  exists l, l <> []
    /\ split a (p ++ String a r) = (l ++ split a r)%list.
Proof.
  induction p as [|c p (l & Hl & IH)]; simpl.
  - rewrite Ascii.eqb_refl. exists [EmptyString]. split; [discriminate|].
    reflexivity.
  - rewrite IH. destruct (Ascii.eqb c a).
    + exists (EmptyString :: l). split; [discriminate|]. reflexivity.
    + destruct l as [|seg l]; [congruence|].
      exists (String c seg :: l). split; [discriminate|]. reflexivity.
Qed.

(** Everything after the final dot, lower-cased, is the extension. *)
Lemma extension_after_final_dot p r :
  includes r "." = false ->
  extension (p ++ String "." r) = Some (toLowerCase r).
Proof.
  intros Hr. unfold extension.
  destruct (split_app_sep "." p r) as (l & _ & E).
  rewrite E, pop_app by apply split_nonempty.
  now rewrite (split_no_sep _ _ Hr).
Qed.

Lemma includes_char_app a s t :
  includes (s ++ String a t) (String a EmptyString) = true.
Proof.
  induction s as [|c s IH].
  - simpl. now rewrite Ascii.eqb_refl.
  - change (String c s ++ String a t) with (String c (s ++ String a t)).
    rewrite includes_char_cons, IH. apply orb_true_r.
Qed.

Lemma toLowerCase_app s t :
  toLowerCase (s ++ t) = toLowerCase s ++ toLowerCase t.
Proof. induction s as [|c s IH]; simpl; congruence. Qed.


Lemma includes_char_split a s t :
  includes (s ++ t) (String a EmptyString)
  = includes s (String a EmptyString) || includes t (String a EmptyString).
Proof.
  induction s as [|c s IH]; [reflexivity|].
  change (String c s ++ t) with (String c (s ++ t)).
  rewrite !includes_char_cons, IH. apply orb_assoc.
Qed.





(** * Checks of the embedding on concrete inputs *)

Example includes_examples :
  includes "https://fonts.googleapis.com/css" "font" = true
  /\ includes "https://use.typekit.net/abc1def.css" "font" = false
  /\ includes "abc" EmptyString = true
  /\ includes EmptyString "a" = false.
Proof. repeat split. Qed.

Example split_examples :
  split "." "a.b.c" = ["a"; "b"; "c"]
  /\ split "." "abc" = ["abc"]
  /\ split "." "abc." = ["abc"; EmptyString]
  /\ split "." EmptyString = [EmptyString].
Proof. repeat split. Qed.

Example extension_examples :
  extension "a/b.c/LOGO.PNG" = Some "png"
  /\ extension "style.css?v=2" = Some "css?v=2"
  /\ extension "style.css?v=1.2" = Some "2"
  /\ extension "noext" = Some "noext".
Proof. repeat split. Qed.

Example trim_examples :
  trim_is_empty "  " = true
  /\ trim_is_empty " x " = false
  /\ trim_is_empty EmptyString = true.
Proof. repeat split. Qed.

(** The pattern asks for a backslash after the colon, after [url] and before
    the end of group 1: a plain CSS declaration does not match, and group 1
    keeps the quotes and the closing backslash. *)
Example extractBackgroundImage_examples :
  extractBackgroundImage None = None
  /\ extractBackgroundImage (Some EmptyString) = None
  /\ extractBackgroundImage (Some "color: red") = None
  /\ extractBackgroundImage (Some "background-image: url('a.png')") = None
  /\ extractBackgroundImage (Some "Background-Image:\ssURL\'a.png'\")
     = Some "'a.png'\"
  /\ extractBackgroundImage (Some "background-image:\url\a\b.png") = Some "a\".
Proof. repeat split. Qed.

Example app_min_css :
  get stylesheet
    (r_breakdown (analyzeResourcesWithCheerio
                    [link [("rel", "stylesheet"); ("href", "app.min.css")]]
                    "https://example.com/"))
  = {| count := 1; size := 25000 |}.
Proof. reflexivity. Qed.

Example sample_page :
  analyzeResourcesWithCheerio
    (page [link roboto; link font_awesome; link [("rel", "icon")];
           link [("rel", "icon"); ("href", "/favicon.ico")]]
          (img bare_img :: img [("src", "logo.png?v=2")] :: sample_body))
    "https://example.com/"
  = {| r_breakdown :=
         {| b_document := {| count := 1; size := 0 |};
            b_stylesheet := {| count := 2; size := 75003 |};
            b_script := {| count := 1; size := 50000 |};
            b_image := {| count := 3; size := 225000 |};
            b_font := {| count := 4; size := 120000 |};
            b_other := {| count := 1; size := 5000 |} |};
       totalRequests := 12;
       r_totalEstimatedSize := 475003 |}.
Proof. reflexivity. Qed.

(** * Further properties of the estimator *)

Lemma totalRequests_sum_counts doc baseUrl :
  totalRequests (analyzeResourcesWithCheerio doc baseUrl)
  = sum_counts (r_breakdown (analyzeResourcesWithCheerio doc baseUrl)).
Proof.
  unfold analyzeResourcesWithCheerio, sum_counts. simpl. lia.
Qed.

Lemma sum_counts_plus a b :
  sum_counts (breakdown (plus a b))
  = sum_counts (breakdown a) + sum_counts (breakdown b).
Proof. unfold sum_counts. rewrite !get_plus. simpl. lia. Qed.

Lemma elements_app anc d1 d2 :
  elements anc (d1 ++ d2) = (elements anc d1 ++ elements anc d2)%list.
Proof. apply flat_map_app. Qed.

Lemma run_passes_app d1 d2 :
  run_passes (d1 ++ d2) initial
  = plus (run_passes d1 initial)
      (sum (map (contribution passes) (elements [] d2))).
Proof.
  rewrite !run_passes_sum, elements_app, map_app, sum_app.
  apply plus_assoc.
Qed.

Lemma run_passes_from_zero doc :
  run_passes doc initial = plus initial (run_passes doc zero).
Proof. now rewrite !run_passes_sum, plus_zero_l. Qed.

(** X1: the analysis of two documents put one after the other is the sum
    of their analyses, the document itself counted once: each of the
    stylesheet, script, image, font and other tallies is the sum of the
    two, totalEstimatedSize is the sum of the two, and totalRequests is the
    sum of the two less 1. *)
Theorem analysis_of_concatenation d1 d2 baseUrl :
  Forall (fun k =>
     get k (r_breakdown (analyzeResourcesWithCheerio (d1 ++ d2) baseUrl))
     = tplus (get k (r_breakdown (analyzeResourcesWithCheerio d1 baseUrl)))
             (get k (r_breakdown (analyzeResourcesWithCheerio d2 baseUrl))))
    [stylesheet; script; image; font; other]
  /\ r_totalEstimatedSize (analyzeResourcesWithCheerio (d1 ++ d2) baseUrl)
     = r_totalEstimatedSize (analyzeResourcesWithCheerio d1 baseUrl)
       + r_totalEstimatedSize (analyzeResourcesWithCheerio d2 baseUrl)
  /\ totalRequests (analyzeResourcesWithCheerio (d1 ++ d2) baseUrl)
     = totalRequests (analyzeResourcesWithCheerio d1 baseUrl)
       + totalRequests (analyzeResourcesWithCheerio d2 baseUrl) - 1.
Proof.
  rewrite !totalRequests_sum_counts.
  unfold analyzeResourcesWithCheerio. simpl r_breakdown.
  simpl r_totalEstimatedSize.
  rewrite run_passes_app, (run_passes_sum d2 initial).
  set (s1 := run_passes d1 initial).
  set (s2 := sum (map (contribution passes) (elements [] d2))).
  split; [|split].
  - repeat (apply Forall_cons;
            [rewrite !get_plus; apply tally_eq; simpl; lia|]).
    apply Forall_nil.
  - simpl. lia.
  - rewrite !sum_counts_plus.
    change (sum_counts (breakdown initial)) with 1. lia.
Qed.




(** ** How much one element can add *)

Ltac split_on_strings :=
  repeat match goal with
         | |- context [String.eqb ?a ?b] =>
             let E := fresh "E" in
             destruct (String.eqb_spec a b) as [E|E];
             [try rewrite E in * |]; simpl
         end.

Ltac split_on_tests :=
  repeat match goal with
         | |- context [if ?c then _ else _] => destruct c; simpl
         | |- context [match ?c with Some _ => _ | None => _ end] =>
             destruct c; simpl
         end.

Lemma callbacks_count_once elem :
  0 <= sum_counts (breakdown (on_cssLink zero elem)) <= 1
  /\ 0 <= sum_counts (breakdown (on_inlineStyle zero elem)) <= 1
  /\ 0 <= sum_counts (breakdown (on_scriptTag zero elem)) <= 1
  /\ 0 <= sum_counts (breakdown (on_inlineScript zero elem)) <= 1
  /\ 0 <= sum_counts (breakdown (on_image zero elem)) <= 1
  /\ 0 <= sum_counts (breakdown (on_fontLink zero elem)) <= 1
  /\ sum_counts (breakdown (on_webFontCSS zero elem)) = 2
  /\ 0 <= sum_counts (breakdown (on_otherResource zero elem)) <= 1.
Proof.
  unfold on_cssLink, on_inlineStyle, on_scriptTag, on_inlineScript,
    on_image, on_fontLink, on_otherResource.
  repeat split; split_on_tests; unfold sum_counts; simpl; lia.
Qed.

(** The selectors that can hold of one element together: a link is in at
    most four of the eight selections, any other element in at most two. *)
Lemma selections_of_one_element elem :
  (if cssLinks elem then 1 else 0) + (if inlineStyles elem then 1 else 0)
  + (if scriptTags elem then 1 else 0) + (if inlineScripts elem then 1 else 0)
  + (if images elem then 1 else 0) + (if fontLinks elem then 1 else 0)
  + (if webFontCSS elem then 2 else 0) + (if otherResources elem then 1 else 0)
  <= 5.
Proof.
  destruct elem as [nm at_ body anc].
  unfold cssLinks, inlineStyles, scriptTags, inlineScripts, images,
    fontLinks, webFontCSS, otherResources, or_, and_, not_, tag, rel_is,
    attr_is, attr_contains, has_attr, inside, attr. simpl.
  destruct (lookup "rel" at_) as [rel|]; simpl;
    split_on_strings; split_on_tests; try lia; try congruence.
Qed.

Import Cases.

Lemma contribution_count_bound elem :
  0 <= sum_counts (breakdown (contribution passes elem)) <= 5.
Proof.
  rewrite contribution_passes, !sum_counts_plus.
  unfold effect. simpl fst. simpl snd.
  pose proof (callbacks_count_once elem)
    as (H1 & H2 & H3 & H4 & H5 & H6 & H7 & H8).
  pose proof (selections_of_one_element elem) as Hsel.
  change (sum_counts (breakdown zero)) with 0.
  destruct (cssLinks elem), (inlineStyles elem), (scriptTags elem),
    (inlineScripts elem), (images elem), (fontLinks elem),
    (webFontCSS elem), (otherResources elem);
    change (sum_counts (breakdown zero)) with 0; lia.
Qed.

Lemma sum_count_bound l :
  0 <= sum_counts (breakdown (sum (map (contribution passes) l)))
    <= 5 * Z.of_nat (List.length l).
Proof.
  induction l as [|x l IH].
  - simpl map. simpl sum. change (sum_counts (breakdown zero)) with 0.
    simpl. lia.
  - simpl map. simpl sum. rewrite sum_counts_plus.
    pose proof (contribution_count_bound x).
    change (List.length (x :: l)) with (S (List.length l)). lia.
Qed.

(** X3: totalRequests is at least 1, the document itself, and at most 1
    plus five times the number of elements of the document: no element
    is counted more than five times. *)
Theorem totalRequests_bounds doc baseUrl :
  1 <= totalRequests (analyzeResourcesWithCheerio doc baseUrl)
    <= 1 + 5 * Z.of_nat (List.length (elements [] doc)).
Proof.
  rewrite totalRequests_sum_counts.
  unfold analyzeResourcesWithCheerio. simpl r_breakdown.
  rewrite run_passes_sum, sum_counts_plus.
  change (sum_counts (breakdown initial)) with 1.
  pose proof (sum_count_bound (elements [] doc)). lia.
Qed.

Lemma all_nonneg_plus a b :
  all_nonneg a -> all_nonneg b -> all_nonneg (plus a b).
Proof.
  rewrite !all_nonneg_get. intros Ha Hb k.
  specialize (Ha k). specialize (Hb k). rewrite get_plus.
  unfold nonneg in *. simpl. lia.
Qed.

Lemma all_nonneg_zero : all_nonneg zero.
Proof.
  apply all_nonneg_get. intros k. rewrite get_zero.
  unfold nonneg. simpl. lia.
Qed.

Lemma contribution_nonneg elem : all_nonneg (contribution passes elem).
Proof.
  unfold contribution. pose proof passes_nonneg as H. unfold preserved in H.
  induction H as [|p ps Hp _ IH]; simpl; [apply all_nonneg_zero|].
  apply all_nonneg_plus; [|exact IH].
  unfold effect. destruct (fst p elem); [|apply all_nonneg_zero].
  apply Hp, all_nonneg_zero.
Qed.

(** X4: a document with one more childless element has no smaller count
    and no smaller size under any key, and its totalRequests is that of
    the document without the element plus at most 5. *)
Theorem one_more_element_never_lowers nm at_ doc doc' baseUrl :
  inserted (Tag nm at_ []) doc doc' ->
  Forall (fun k =>
     count (get k (r_breakdown (analyzeResourcesWithCheerio doc baseUrl)))
     <= count (get k (r_breakdown (analyzeResourcesWithCheerio doc' baseUrl)))
     /\ size (get k (r_breakdown (analyzeResourcesWithCheerio doc baseUrl)))
        <= size (get k
                   (r_breakdown (analyzeResourcesWithCheerio doc' baseUrl))))
    [document; stylesheet; script; image; font; other]
  /\ totalRequests (analyzeResourcesWithCheerio doc baseUrl)
     <= totalRequests (analyzeResourcesWithCheerio doc' baseUrl)
     <= totalRequests (analyzeResourcesWithCheerio doc baseUrl) + 5.
Proof.
  intros Hins. rewrite !totalRequests_sum_counts.
  unfold analyzeResourcesWithCheerio. simpl r_breakdown.
  destruct (run_passes_inserted _ _ _ _ Hins) as [anc E]. rewrite E.
  pose proof (contribution_nonneg (leaf nm at_ anc)) as Hn.
  rewrite all_nonneg_get in Hn.
  pose proof (contribution_count_bound (leaf nm at_ anc)) as Hc.
  split.
  - repeat (apply Forall_cons;
            [cbv beta; rewrite get_plus;
             match goal with
             | |- context [get ?k (breakdown (contribution _ _))] =>
                 let Hk := fresh "Hk" in
                 pose proof (Hn k) as Hk; unfold nonneg in Hk
             end;
             unfold tplus; cbn [count size]; lia|]).
    apply Forall_nil.
  - rewrite sum_counts_plus. lia.
Qed.

Lemma one_more_element_never_lowers_witness :
  inserted (link roboto) (page [] sample_body) (page [link roboto] sample_body)
  /\ totalRequests (analyzeResourcesWithCheerio (page [] sample_body)
                      "https://example.com/")
     <= totalRequests (analyzeResourcesWithCheerio
                         (page [link roboto] sample_body)
                         "https://example.com/")
     <= totalRequests (analyzeResourcesWithCheerio (page [] sample_body)
                         "https://example.com/") + 5.
Proof.
  assert (H : inserted (link roboto) (page [] sample_body)
                (page [link roboto] sample_body)).
  { apply (inserted_below _ [] "html" [] _ _ [] eq_refl).
    apply (inserted_below _ [] "head" [] _ _ [Tag "body" [] sample_body]
             eq_refl).
    apply (inserted_here _ [] []). }
  split; [exact H|].
  apply (one_more_element_never_lowers "link" roboto _ _
           "https://example.com/" H).
Defined.

(** ** Elements no selector looks at *)

Lemma contribution_not_looked_at elem :
  looked_at elem = false -> contribution passes elem = zero.
Proof.
  unfold looked_at, selected_names. simpl existsb. intros H.
  repeat match goal with
         | E : _ || _ = false |- _ => apply orb_false_elim in E; destruct E
         end.
  rewrite contribution_passes.
  unfold effect, cssLinks, inlineStyles, scriptTags, inlineScripts, images,
    fontLinks, webFontCSS, otherResources, or_, and_, not_, tag.
  simpl fst. simpl snd.
  repeat match goal with
         | E : String.eqb (name elem) _ = false |- _ => rewrite E; clear E
         | E : attr_contains _ _ _ = false |- _ => rewrite E; clear E
         end.
  rewrite !andb_false_r. simpl. reflexivity.
Qed.

Lemma sum_all_zero l :
  Forall (fun elem => looked_at elem = false) l ->
  sum (map (contribution passes) l) = zero.
Proof.
  induction 1 as [|x l Hx _ IH]; simpl; [reflexivity|].
  now rewrite (contribution_not_looked_at x Hx), IH, plus_zero_l.
Qed.

(** X5: only link, style, script, img, source, embed, object, audio and
    video elements and elements whose style attribute contains
    background-image are ever counted: a document with no such element
    gives the result of the empty document, document 1 and 0 everywhere
    else, totalRequests 1 and totalEstimatedSize 0. *)
Theorem other_elements_are_not_counted doc baseUrl :
  Forall (fun elem => looked_at elem = false) (elements [] doc) ->
  analyzeResourcesWithCheerio doc baseUrl = baseline.
Proof.
  intros H. unfold analyzeResourcesWithCheerio.
  rewrite run_passes_sum, (sum_all_zero _ H), plus_zero_r. reflexivity.
Qed.

Lemma other_elements_are_not_counted_witness :
  analyzeResourcesWithCheerio
    (page [Tag "title" [] [Text "Home"];
           Tag "meta" [("name", "description"); ("content", "A page")] []]
          [Tag "iframe" [("src", "https://example.org/embed.html")] [];
           Tag "a" [("href", "/fonts.html")] [Text "Fonts"];
           Tag "input" [("type", "image"); ("src", "go.png")] []])
    "https://example.com/"
  = baseline.
Proof.
  apply other_elements_are_not_counted.
  simpl. repeat (apply Forall_cons; [reflexivity|]). apply Forall_nil.
Defined.

(** ** Script elements *)








(** ** Image elements *)

Lemma img_contribution at_ anc :
  contribution passes (leaf "img" at_ anc)
  = on_image zero (leaf "img" at_ anc).
Proof.
  rewrite contribution_passes. unfold effect. simpl fst. simpl snd.
  change (cssLinks _) with false. change (inlineStyles _) with false.
  change (scriptTags _) with false. change (inlineScripts _) with false.
  change (images (leaf "img" at_ anc)) with true.
  change (fontLinks _) with false. change (webFontCSS _) with false.
  change (otherResources _) with false. cbv iota.
  now rewrite !plus_zero_l, !plus_zero_r.
Qed.

Lemma analysis_of_plus_record doc doc' k n baseUrl :
  k <> document ->
  run_passes doc' initial = plus (run_passes doc initial) (record k n zero) ->
  get k (r_breakdown (analyzeResourcesWithCheerio doc' baseUrl))
  = {| count :=
         count (get k (r_breakdown (analyzeResourcesWithCheerio doc baseUrl)))
         + 1;
       size :=
         size (get k (r_breakdown (analyzeResourcesWithCheerio doc baseUrl)))
         + n |}
  /\ totalRequests (analyzeResourcesWithCheerio doc' baseUrl)
     = totalRequests (analyzeResourcesWithCheerio doc baseUrl) + 1
  /\ r_totalEstimatedSize (analyzeResourcesWithCheerio doc' baseUrl)
     = r_totalEstimatedSize (analyzeResourcesWithCheerio doc baseUrl) + n.
Proof.
  intros Hk E. rewrite !totalRequests_sum_counts.
  unfold analyzeResourcesWithCheerio. simpl r_breakdown.
  simpl r_totalEstimatedSize. rewrite E. split; [|split].
  - rewrite get_plus, record_there, get_zero. apply tally_eq; simpl; lia.
  - rewrite sum_counts_plus. destruct k; try congruence;
      unfold sum_counts; simpl; lia.
  - simpl. lia.
Qed.

(** X7: an img with a non-empty src is counted once under image with the
    estimate for that src, whatever its srcset and style attributes hold:
    image.count and totalRequests grow by 1, image.size and
    totalEstimatedSize by the estimate. *)
Theorem img_src_comes_first at_ src doc doc' baseUrl :
  inserted (img at_) doc doc' ->
  lookup "src" at_ = Some src ->
  truthy (Some src) = true ->
  get image (r_breakdown (analyzeResourcesWithCheerio doc' baseUrl))
  = {| count :=
         count (get image
                  (r_breakdown (analyzeResourcesWithCheerio doc baseUrl)))
         + 1;
       size :=
         size (get image
                 (r_breakdown (analyzeResourcesWithCheerio doc baseUrl)))
         + estimateImageSize src |}
  /\ totalRequests (analyzeResourcesWithCheerio doc' baseUrl)
     = totalRequests (analyzeResourcesWithCheerio doc baseUrl) + 1
  /\ r_totalEstimatedSize (analyzeResourcesWithCheerio doc' baseUrl)
     = r_totalEstimatedSize (analyzeResourcesWithCheerio doc baseUrl)
       + estimateImageSize src.
Proof.
  intros Hins Hsrc Ht.
  destruct (run_passes_inserted _ _ _ _ Hins) as [anc E].
  apply analysis_of_plus_record; [discriminate|].
  rewrite E, img_contribution. f_equal.
  unfold on_image, attr, or_else. cbn [attribs leaf].
  rewrite Hsrc. repeat (rewrite Ht; cbv iota). reflexivity.
Qed.

Lemma img_src_comes_first_witness :
  inserted (img [("srcset", "hero.svg"); ("src", "hero.PNG")])
    (page [] []) (page [] [img [("srcset", "hero.svg"); ("src", "hero.PNG")]])
  /\ get image
       (r_breakdown (analyzeResourcesWithCheerio
          (page [] [img [("srcset", "hero.svg"); ("src", "hero.PNG")]])
          "https://example.com/"))
     = {| count := 1; size := 80000 |}.
Proof.
  assert (H : inserted (img [("srcset", "hero.svg"); ("src", "hero.PNG")])
    (page [] [])
    (page [] [img [("srcset", "hero.svg"); ("src", "hero.PNG")]])).
  { apply (inserted_below _ [] "html" [] _ _ [] eq_refl).
    apply (inserted_below _ [Tag "head" [] []] "body" [] _ _ [] eq_refl).
    apply (inserted_here _ [] []). }
  split; [exact H|].
  destruct (img_src_comes_first _ "hero.PNG" _ _ "https://example.com/" H
              eq_refl eq_refl) as [E _].
  rewrite E. reflexivity.
Defined.

(** An extension with a character in it that no extension of the tables
    has is none of the table's. *)
Lemma ext_with_char_differs a e q known :
  lower_char a = a ->
  includes known (String a EmptyString) = false ->
  ext_eq (Some (toLowerCase (e ++ String a q))) known = false.
Proof.
  intros Ha Hk. simpl.
  destruct (String.eqb_spec (toLowerCase (e ++ String a q)) known)
    as [E|]; [|reflexivity].
  rewrite <- E, toLowerCase_app in Hk. simpl in Hk. rewrite Ha in Hk.
  now rewrite includes_char_app in Hk.
Qed.

Lemma default_image_size_before_space p e d :
  includes e "." = false ->
  includes d "." = false ->
  estimateImageSize (p ++ String "." (e ++ String " " d)) = 75000.
Proof.
  intros He Hd. unfold estimateImageSize.
  rewrite extension_after_final_dot.
  - now rewrite !ext_with_char_differs by reflexivity.
  - rewrite includes_char_split, He. rewrite includes_char_cons, Hd.
    reflexivity.
Qed.

(** X8: for an img without a usable src the whole srcset attribute is
    taken as the URL, descriptors included.  When a space and a descriptor
    follow the extension of its last URL, the image is estimated at the
    default 75000, whatever that extension is. *)
Theorem img_srcset_descriptor_gets_default at_ p e d doc doc' baseUrl :
  inserted (img at_) doc doc' ->
  truthy (lookup "src" at_) = false ->
  lookup "srcset" at_ = Some (p ++ "." ++ e ++ " " ++ d) ->
  includes e "." = false ->
  includes d "." = false ->
  get image (r_breakdown (analyzeResourcesWithCheerio doc' baseUrl))
  = {| count :=
         count (get image
                  (r_breakdown (analyzeResourcesWithCheerio doc baseUrl)))
         + 1;
       size :=
         size (get image
                 (r_breakdown (analyzeResourcesWithCheerio doc baseUrl)))
         + 75000 |}.
Proof.
  intros Hins Hsrc Hset He Hd.
  destruct (run_passes_inserted _ _ _ _ Hins) as [anc E].
  apply (analysis_of_plus_record doc doc' image 75000 baseUrl);
    [discriminate|].
  rewrite E, img_contribution. f_equal.
  unfold on_image, attr, or_else. cbn [attribs leaf].
  rewrite Hsrc, Hset.
  change (p ++ "." ++ e ++ " " ++ d) with (p ++ String "." (e ++ String " " d)).
  assert (Ht : truthy (Some (p ++ String "." (e ++ String " " d))) = true)
    by (destruct p; reflexivity).
  repeat (rewrite Ht; cbv iota).
  now rewrite (default_image_size_before_space p e d He Hd).
Qed.

Lemma img_srcset_descriptor_gets_default_witness :
  inserted (img [("srcset", "hero-1x.png 1x, hero-2x.png 2x")])
    (page [] []) (page [] [img [("srcset", "hero-1x.png 1x, hero-2x.png 2x")]])
  /\ get image
       (r_breakdown (analyzeResourcesWithCheerio
          (page [] [img [("srcset", "hero-1x.png 1x, hero-2x.png 2x")]])
          "https://example.com/"))
     = {| count := 1; size := 75000 |}.
Proof.
  assert (H : inserted (img [("srcset", "hero-1x.png 1x, hero-2x.png 2x")])
    (page [] [])
    (page [] [img [("srcset", "hero-1x.png 1x, hero-2x.png 2x")]])).
  { apply (inserted_below _ [] "html" [] _ _ [] eq_refl).
    apply (inserted_below _ [Tag "head" [] []] "body" [] _ _ [] eq_refl).
    apply (inserted_here _ [] []). }
  split; [exact H|].
  rewrite (img_srcset_descriptor_gets_default _ "hero-1x.png 1x, hero-2x"
             "png" "2x" _ _ "https://example.com/" H eq_refl eq_refl
             eq_refl eq_refl).
  reflexivity.
Defined.

(** ** Sizes against counts *)

Ltac split_ifs :=
  repeat match goal with
         | |- context [if ?c then _ else _] => destruct c
         end.

Lemma estimateCSSSize_range href : 25000 <= estimateCSSSize href <= 150000.
Proof. unfold estimateCSSSize. split_ifs; lia. Qed.

Lemma estimateJSSize_range src : 30000 <= estimateJSSize src <= 200000.
Proof. unfold estimateJSSize. split_ifs; lia. Qed.

Lemma estimateImageSize_range src : 5000 <= estimateImageSize src <= 100000.
Proof. unfold estimateImageSize. cbv zeta. split_ifs; lia. Qed.

Lemma estimateFontSize_range href : 25000 <= estimateFontSize href <= 60000.
Proof. unfold estimateFontSize. cbv zeta. split_ifs; lia. Qed.

Lemma estimateOtherResourceSize_range href :
  2000 <= estimateOtherResourceSize href <= 20000.
Proof. unfold estimateOtherResourceSize. split_ifs; lia. Qed.

Lemma byteLength_truthy c : truthy (Some c) = true -> 1 <= byteLength c.
Proof.
  destruct c; [discriminate|]. intros _. unfold byteLength. simpl length. lia.
Qed.

Lemma record_within_table k n st :
  match k with
  | document => False
  | stylesheet | script => 1 <= n
  | image => 5000 <= n <= 100000
  | font => 25000 <= n <= 60000
  | other => 2000 <= n <= 20000
  end ->
  within_table (breakdown st) -> within_table (breakdown (record k n st)).
Proof.
  unfold within_table. destruct st as [[[] [] [] [] [] []] t].
  destruct k; cbn -[Z.mul Z.add]; intros Hn H; try contradiction; lia.
Qed.

Lemma passes_within_table :
  preserved (fun st => within_table (breakdown st)) passes.
Proof.
  unfold preserved, passes.
  repeat apply Forall_cons; try apply Forall_nil; simpl; intros st elem H.
  - unfold on_cssLink. destruct (attr elem "href") as [h|]; [|exact H].
    destruct (truthy (Some h)); [|exact H].
    apply record_within_table; [|exact H].
    pose proof (estimateCSSSize_range h). lia.
  - unfold on_inlineStyle, html.
    destruct (truthy (Some (inner elem))) eqn:E; [|exact H].
    apply record_within_table; [|exact H]. now apply byteLength_truthy.
  - unfold on_scriptTag. destruct (attr elem "src") as [s|]; [|exact H].
    destruct (truthy (Some s)); [|exact H].
    apply record_within_table; [|exact H].
    pose proof (estimateJSSize_range s). lia.
  - unfold on_inlineScript, html.
    destruct (truthy (Some (inner elem))) eqn:E; [|exact H].
    destruct (negb (trim_is_empty (inner elem))); [|exact H].
    apply record_within_table; [|exact H]. now apply byteLength_truthy.
  - unfold on_image.
    destruct (or_else _ _) as [s|]; [|exact H].
    destruct (truthy (Some s)); [|exact H].
    apply record_within_table; [|exact H]. apply estimateImageSize_range.
  - unfold on_fontLink. destruct (attr elem "href") as [h|]; [|exact H].
    destruct (truthy (Some h)); [|exact H].
    apply record_within_table; [|exact H]. apply estimateFontSize_range.
  - revert H. unfold within_table. destruct st as [[[] [] [] [] [] []] t].
    cbn -[Z.mul Z.add]. lia.
  - unfold on_otherResource.
    destruct (or_else _ _) as [h|]; [|exact H].
    destruct (truthy (Some h)); [|exact H].
    apply record_within_table; [|exact H].
    apply estimateOtherResourceSize_range.
Qed.

(** X9: in every result each size stays within what the counted
    resources can weigh: image.size lies between 5000 and 100000 times
    image.count, font.size between 25000 and 60000 times font.count,
    other.size between 2000 and 20000 times other.count, and
    stylesheet.size and script.size are at least their counts (no
    resource is counted with 0 bytes). *)
Theorem sizes_follow_counts doc baseUrl :
  within_table (r_breakdown (analyzeResourcesWithCheerio doc baseUrl)).
Proof.
  unfold analyzeResourcesWithCheerio. simpl r_breakdown.
  apply (run_passes_preserves (fun st => within_table (breakdown st)) doc
           passes_within_table initial).
  unfold within_table. cbn -[Z.mul Z.add]. lia.
Qed.

(** ** The extension again *)

(** X10: the image and font estimates depend only on the text after the
    final dot, whatever the case of its letters: two URLs whose texts
    after the final dot are equal once lower-cased get the same estimate,
    whatever comes before the dot. *)
Theorem estimate_depends_on_lowercased_extension p p' e e' :
  includes e "." = false ->
  includes e' "." = false ->
  toLowerCase e = toLowerCase e' ->
  estimateImageSize (p ++ "." ++ e) = estimateImageSize (p' ++ "." ++ e')
  /\ estimateFontSize (p ++ "." ++ e) = estimateFontSize (p' ++ "." ++ e').
Proof.
  intros He He' Heq.
  unfold estimateImageSize, estimateFontSize.
  change (p ++ "." ++ e) with (p ++ String "." e).
  change (p' ++ "." ++ e') with (p' ++ String "." e').
  rewrite (extension_after_final_dot p e He).
  rewrite (extension_after_final_dot p' e' He'), Heq. auto.
Qed.

Lemma estimate_depends_on_lowercased_extension_witness :
  estimateImageSize "https://cdn.example.com/img/Photo.JPG" = 60000
  /\ estimateImageSize "a.jpg" = 60000
  /\ estimateFontSize "https://cdn.example.com/img/Photo.JPG"
     = estimateFontSize "a.jpg".
Proof.
  destruct (estimate_depends_on_lowercased_extension
              "https://cdn.example.com/img/Photo" "a" "JPG" "jpg"
              eq_refl eq_refl eq_refl) as [Hi Hf].
  split; [reflexivity|]. split; [reflexivity | exact Hf].
Defined.

(** ** What the pattern of [extractBackgroundImage] matches *)

Lemma startsWith_includes_char a : forall w t,
  startsWith t w = true ->
  includes w (String a EmptyString) = true ->
  includes t (String a EmptyString) = true.
Proof.
  induction w as [|b w IH]; intros t Hs Hw; [discriminate|].
  destruct t as [|c t]; [discriminate|].
  simpl in Hs. apply andb_prop in Hs as [Hbc Hs].
  apply Ascii.eqb_eq in Hbc. subst c.
  rewrite includes_char_cons in *.
  destruct (Ascii.eqb a b); [reflexivity|]. simpl in *.
  apply (IH t Hs Hw).
Qed.

Lemma includes_includes_char a w : forall t,
  includes t w = true ->
  includes w (String a EmptyString) = true ->
  includes t (String a EmptyString) = true.
Proof.
  induction t as [|c t IH]; intros Ht Hw.
  - simpl in Ht. rewrite orb_false_r in Ht.
    apply (startsWith_includes_char a w _ Ht Hw).
  - change (includes (String c t) w)
      with (startsWith (String c t) w || includes t w) in Ht.
    apply orb_prop in Ht as [Ht|Ht].
    + apply (startsWith_includes_char a w _ Ht Hw).
    + rewrite includes_char_cons, (IH Ht Hw). apply orb_true_r.
Qed.

Lemma lower_char_backslash x : lower_char x = "\"%char -> x = "\"%char.
Proof.
  destruct x as [[] [] [] [] [] [] [] []]; vm_compute; congruence.
Qed.

Lemma includes_backslash_lower s :
  includes (toLowerCase s) "\" = true -> includes s "\" = true.
Proof.
  induction s as [|c s IH]; [discriminate|].
  simpl toLowerCase. rewrite !includes_char_cons. intros H.
  apply orb_prop in H as [H|H].
  - apply Ascii.eqb_eq in H. symmetry in H.
    apply lower_char_backslash in H. subst c. reflexivity.
  - rewrite (IH H). apply orb_true_r.
Qed.

(** X11: the pattern asks for a backslash after [background-image:], so a
    style attribute with no backslash in it never yields a URL: for an
    ordinary declaration such as [background-image: url(a.png)]
    [extractBackgroundImage] returns null. *)
Theorem style_without_backslash_has_no_url style :
  includes style "\" = false ->
  extractBackgroundImage (Some style) = None.
Proof.
  intros H. unfold extractBackgroundImage.
  destruct (truthy (Some style)); [|reflexivity]. simpl negb. cbv iota.
  unfold match_group.
  destruct (search true background_image_re style 0) eqn:E; [|reflexivity].
  change background_image_re
    with (lit "background-image:\"
          ++ skipn 18 background_image_re)%list in E.
  apply search_lit in E; [|reflexivity].
  apply (includes_includes_char "\") in E; [|reflexivity].
  apply includes_backslash_lower in E. congruence.
Qed.

Lemma style_without_backslash_has_no_url_witness :
  includes "background-image: url('hero.png'); color: red" "background-image"
  = true
  /\ extractBackgroundImage
       (Some "background-image: url('hero.png'); color: red")
     = None.
Proof.
  split; [reflexivity|].
  apply style_without_backslash_has_no_url. reflexivity.
Defined.

Lemma one_inv p k s pos c c' :
  one p k s pos c = Some c' ->
  exists x s', s = String x s' /\ p x = true /\ k s' (S pos) c = Some c'.
Proof.
  unfold one. destruct s as [|x s']; [discriminate|].
  destruct (p x) eqn:E; [|discriminate]. intros H. exists x, s'. auto.
Qed.

Lemma star_inv p k : forall s pos c c',
  star p k s pos c = Some c' ->
  exists m s', s = m ++ s'
    /\ k s' (pos + String.length m)%nat c = Some c'.
Proof.
  induction s as [|x s IH]; intros pos c c' H; simpl in H.
  - exists EmptyString, EmptyString. rewrite Nat.add_0_r. auto.
  - destruct (p x).
    + destruct (star p k s (S pos) c) as [c1|] eqn:E.
      * injection H as <-. destruct (IH _ _ _ E) as (m & s' & -> & Hk).
        exists (String x m), s'. split; [reflexivity|].
        simpl String.length. rewrite Nat.add_succ_r. exact Hk.
      * exists EmptyString, (String x s). rewrite Nat.add_0_r. auto.
    + exists EmptyString, (String x s). rewrite Nat.add_0_r. auto.
Qed.

(** A match of [r1 ++ r2], where [r1] neither opens nor closes group 1:
    [r1] takes some text [m] and leaves group 1 as it was. *)
Lemma run_prefix ic r2 : forall r1,
  Forall (fun i => match i with
                   | Open 1 | Close 1 => False
                   | _ => True
                   end) r1 ->
  forall s pos c c',
    run ic (r1 ++ r2)%list s pos c = Some c' ->
    exists m s' c1,
      s = m ++ s'
      /\ find 1 (starts c1) = find 1 (starts c)
      /\ find 1 (ends c1) = find 1 (ends c)
      /\ run ic r2 s' (pos + String.length m)%nat c1 = Some c'.
Proof.
  induction 1 as [|i r1 Hi _ IH]; intros s pos c c' H.
  - exists EmptyString, s, c. rewrite Nat.add_0_r. auto.
  - destruct i as [a q|n|n]; simpl in H.
    + destruct q.
      * apply one_inv in H as (x & s1 & -> & _ & H).
        destruct (IH _ _ _ _ H) as (m & s' & c1 & -> & Hs & He & Hr).
        exists (String x m), s', c1. simpl String.length.
        rewrite Nat.add_succ_r. auto.
      * destruct (one _ _ s pos c) as [c2|] eqn:E.
        -- injection H as <-.
           apply one_inv in E as (x & s1 & -> & _ & E).
           destruct (IH _ _ _ _ E) as (m & s' & c1 & -> & Hs & He & Hr).
           exists (String x m), s', c1. simpl String.length.
           rewrite Nat.add_succ_r. auto.
        -- destruct (IH _ _ _ _ H) as (m & s' & c1 & -> & Hs & He & Hr).
           exists m, s', c1. auto.
      * apply star_inv in H as (m0 & s0 & -> & H).
        destruct (IH _ _ _ _ H) as (m & s' & c1 & -> & Hs & He & Hr).
        exists (m0 ++ m), s', c1.
        rewrite <- Nat.add_assoc in Hr.
        assert (L : (String.length m0 + String.length m)%nat
                    = String.length (m0 ++ m)).
        { clear. induction m0; simpl; congruence. }
        rewrite L in Hr. split; [|auto].
        clear. induction m0; simpl; congruence.
      * apply one_inv in H as (x & s1 & -> & _ & H).
        apply star_inv in H as (m0 & s0 & -> & H).
        destruct (IH _ _ _ _ H) as (m & s' & c1 & -> & Hs & He & Hr).
        exists (String x (m0 ++ m)), s', c1.
        rewrite <- Nat.add_assoc in Hr.
        assert (L : (String.length m0 + String.length m)%nat
                    = String.length (m0 ++ m)).
        { clear. induction m0; simpl; congruence. }
        rewrite L in Hr. simpl String.length. rewrite Nat.add_succ_r.
        split; [|auto].
        simpl. f_equal. clear. induction m0; simpl; congruence.
    + destruct (IH _ _ _ _ H) as (m & s' & c1 & -> & Hs & He & Hr).
      exists m, s', c1. simpl in Hs, He.
      destruct (Nat.eqb_spec n 1) as [->|]; [contradiction|].
      auto.
    + destruct (IH _ _ _ _ H) as (m & s' & c1 & -> & Hs & He & Hr).
      exists m, s', c1. simpl in Hs, He.
      destruct (Nat.eqb_spec n 1) as [->|]; [contradiction|].
      auto.
Qed.

Lemma search_inv ic r : forall s pos c,
  search ic r s pos = Some c ->
  exists pre s', s = pre ++ s'
    /\ run ic r s' (pos + String.length pre)%nat no_caps = Some c.
Proof.
  induction s as [|x s IH]; intros pos c H; simpl in H.
  - destruct (run ic r EmptyString pos no_caps) eqn:E; [|discriminate].
    exists EmptyString, EmptyString. simpl. rewrite Nat.add_0_r.
    split; congruence.
  - destruct (run ic r (String x s) pos no_caps) eqn:E.
    + exists EmptyString, (String x s). simpl. rewrite Nat.add_0_r.
      split; congruence.
    + destruct (IH _ _ H) as (pre & s' & -> & Hr).
      exists (String x pre), s'. simpl String.length.
      rewrite Nat.add_succ_r. auto.
Qed.

Lemma substring_middle : forall pre m post,
  substring (String.length pre) (String.length m) (pre ++ m ++ post) = m.
Proof.
  induction pre as [|c pre IH]; intros m post.
  - simpl. induction m as [|x m IHm]; simpl.
    + destruct post; reflexivity.
    + now rewrite IHm.
  - simpl. apply IH.
Qed.

Lemma length_append s t :
  String.length (s ++ t) = (String.length s + String.length t)%nat.
Proof. induction s; simpl; congruence. Qed.

Lemma append_assoc (s t u : string) : (s ++ t) ++ u = s ++ t ++ u.
Proof. induction s; simpl; congruence. Qed.

(** What [extractBackgroundImage] returns ends in a backslash. *)
Lemma extractBackgroundImage_ends_in_backslash style u :
  extractBackgroundImage (Some style) = Some u ->
  exists m, u = m ++ "\".
Proof.
  unfold extractBackgroundImage.
  destruct (truthy (Some style)); [|discriminate]. simpl negb. cbv iota.
  unfold match_group.
  destruct (search true background_image_re style 0) as [c|] eqn:E;
    [|discriminate].
  apply search_inv in E as (pre & s & -> & E). rewrite Nat.add_0_l in E.
  change background_image_re
    with (firstn 23 background_image_re
          ++ Open 1 :: (firstn 5 (skipn 24 background_image_re)
                        ++ skipn 29 background_image_re))%list in E.
  apply run_prefix in E as (m1 & s1 & c1 & -> & _ & He1 & E);
    [|simpl; repeat constructor].
  change (run true (Open 1 :: ?r) ?s ?pos ?c)
    with (run true r s pos {| starts := (1%nat, pos) :: starts c;
                              ends := ends c |}) in E.
  apply run_prefix in E as (m2 & s2 & c2 & -> & Hs2 & He2 & E);
    [|simpl; repeat constructor].
  simpl in E. apply one_inv in E as (x & s3 & -> & Hx & E).
  injection E as <-. cbn [starts ends find Nat.eqb].
  cbn [starts find Nat.eqb] in Hs2. rewrite Hs2.
  intros H. injection H as <-.
  apply (char_eq_lower "\" x) in Hx; [|reflexivity].
  apply lower_char_backslash in Hx. subst x.
  exists m2.
  rewrite <- length_append.
  match goal with
  | |- substring _ ?n _ = _ =>
      replace n with (String.length (m2 ++ "\"))
        by (rewrite (length_append m2); cbn [String.length];
            destruct (String.length (pre ++ m1)); lia)
  end.
  rewrite <- (append_assoc pre m1).
  change (String "\" s3) with ("\" ++ s3).
  rewrite <- (append_assoc m2 "\" s3).
  apply substring_middle.
Qed.

Lemma final_dot m :
  includes m "." = false
  \/ exists p r, m = p ++ String "." r /\ includes r "." = false.
Proof.
  induction m as [|c m IH].
  - left. reflexivity.
  - destruct IH as [IH | (p & r & -> & Hr)].
    + rewrite includes_char_cons, IH.
      destruct (Ascii.eqb_spec "." c) as [<-|].
      * right. exists EmptyString, m. auto.
      * left. reflexivity.
    + right. exists (String c p), r. auto.
Qed.

Lemma extension_without_dot s :
  includes s "." = false -> extension s = Some (toLowerCase s).
Proof.
  intros H. unfold extension. now rewrite (split_no_sep _ _ H).
Qed.

Lemma default_image_size_of_backslash m :
  estimateImageSize (m ++ "\") = 75000.
Proof.
  unfold estimateImageSize.
  destruct (final_dot m) as [H | (p & r & -> & Hr)].
  - rewrite extension_without_dot
      by (rewrite includes_char_split, H; reflexivity).
    now rewrite !ext_with_char_differs by reflexivity.
  - rewrite append_assoc.
    change (String "." r ++ "\") with (String "." (r ++ "\")).
    rewrite extension_after_final_dot
      by (rewrite includes_char_split, Hr; reflexivity).
    now rewrite !ext_with_char_differs by reflexivity.
Qed.

(** X12: whatever [extractBackgroundImage] returns ends in a backslash, so
    it is never empty and [estimateImageSize] finds no extension of its
    table in it: an element counted through its style attribute alone
    always adds the default 75000 to image.size. *)
Theorem background_image_always_default style u st elem :
  extractBackgroundImage (Some style) = Some u ->
  truthy (attr elem "src") = false ->
  truthy (attr elem "srcset") = false ->
  attr elem "style" = Some style ->
  truthy (Some u) = true
  /\ estimateImageSize u = 75000
  /\ on_image st elem = record image 75000 st.
Proof.
  intros Hu Hsrc Hset Hstyle.
  destruct (extractBackgroundImage_ends_in_backslash _ _ Hu) as [m ->].
  assert (Ht : truthy (Some (m ++ "\")) = true) by (destruct m; reflexivity).
  split; [exact Ht|]. split; [apply default_image_size_of_backslash|].
  unfold on_image, or_else. rewrite Hsrc, Hset. cbv iota.
  rewrite Hstyle, Hu. repeat (rewrite Ht; cbv iota).
  now rewrite default_image_size_of_backslash.
Qed.

Lemma background_image_always_default_witness :
  extractBackgroundImage (Some "background-image:\url\'hero.svg'\")
  = Some "'hero.svg'\"
  /\ estimateImageSize "'hero.svg'\" = 75000
  /\ get image
       (breakdown (on_image initial
          (leaf "div" [("style", "background-image:\url\'hero.svg'\")] [])))
     = {| count := 1; size := 75000 |}.
Proof.
  destruct (background_image_always_default
              "background-image:\url\'hero.svg'\" "'hero.svg'\" initial
              (leaf "div" [("style", "background-image:\url\'hero.svg'\")] [])
              eq_refl eq_refl eq_refl eq_refl) as (_ & He & Ho).
  split; [reflexivity|]. split; [exact He|]. rewrite Ho. reflexivity.
Defined.

(** * The handler of the cheerio route *)

Lemma analysis_balanced doc baseUrl :
  r_totalEstimatedSize (analyzeResourcesWithCheerio doc baseUrl)
  = sum_sizes (r_breakdown (analyzeResourcesWithCheerio doc baseUrl)).
Proof.
  unfold analyzeResourcesWithCheerio. simpl.
  apply (run_passes_preserves balanced doc passes_balanced initial).
  reflexivity.
Qed.

Lemma analysis_sum_sizes_nonneg doc baseUrl :
  0 <= sum_sizes (r_breakdown (analyzeResourcesWithCheerio doc baseUrl)).
Proof.
  unfold analyzeResourcesWithCheerio. simpl r_breakdown.
  assert (H : all_nonneg (run_passes doc initial)).
  { apply (run_passes_preserves all_nonneg doc passes_nonneg initial).
    unfold all_nonneg, nonneg. simpl. repeat constructor; simpl; lia. }
  rewrite all_nonneg_get in H. unfold sum_sizes.
  pose proof (H document); pose proof (H stylesheet); pose proof (H script).
  pose proof (H image); pose proof (H font); pose proof (H other).
  unfold nonneg in *. lia.
Qed.

Lemma analysis_totalRequests_at_least_1 doc baseUrl :
  1 <= totalRequests (analyzeResourcesWithCheerio doc baseUrl).
Proof.
  rewrite totalRequests_sum_counts.
  unfold analyzeResourcesWithCheerio. simpl r_breakdown.
  rewrite run_passes_sum, sum_counts_plus.
  change (sum_counts (breakdown initial)) with 1.
  pose proof (sum_count_bound (elements [] doc)). lia.
Qed.

Lemma or_default_nonempty a d :
  d <> EmptyString -> Handler.or_default a d <> EmptyString.
Proof.
  intros Hd. unfold Handler.or_default, or_else.
  destruct a as [[|c s]|]; simpl; auto. discriminate.
Qed.
Lemma POST_results_shape env body startTime endTime now r st :
  Handler.POST env body startTime endTime now
  = Handler.Json (Handler.Results r) st ->
  exists url html,
    st = 200
    /\ r = {| Handler.url := url;
              Handler.loadTime := endTime - startTime;
              Handler.pageSize :=
                byteLength html
                + r_totalEstimatedSize
                    (analyzeResourcesWithCheerio (Handler.load env html) url);
              Handler.requestCount :=
                totalRequests
                  (analyzeResourcesWithCheerio (Handler.load env html) url);
              Handler.resourceBreakdown :=
                r_breakdown
                  (analyzeResourcesWithCheerio (Handler.load env html) url);
              Handler.htmlSize := byteLength html;
              Handler.title :=
                Handler.or_default
                  (Some (Handler.title_text (Handler.load env html)))
                  "No title found";
              Handler.metaDescription :=
                Handler.or_default
                  (Handler.meta_description (Handler.load env html))
                  "No description found";
              Handler.timestamp := now |}.
Proof.
  unfold Handler.POST, Handler.failed.
  destruct body as [|[u|]]; try discriminate.
  destruct (truthy (Some u)); simpl negb; cbv iota; [|discriminate].
  destruct (Handler.valid_url env u); simpl negb; cbv iota; [|discriminate].
  destruct (Handler.fetch env u) as [resp|]; [|discriminate].
  destruct (Handler.ok resp); simpl negb; cbv iota; [|discriminate].
  destruct (Handler.text resp) as [html|]; [|discriminate].
  intros H. injection H as <- <-. exists u, html. split; reflexivity.
Qed.

(** X13: a 200 answer of the cheerio route is consistent: pageSize is
    htmlSize plus the sum of the six sizes of resourceBreakdown,
    requestCount is the sum of its six counts and at least 1, htmlSize is
    not negative, loadTime is the difference of the two clock readings,
    and title and metaDescription are never empty. *)
Theorem POST_results_are_consistent env body startTime endTime now r st :
  Handler.POST env body startTime endTime now
  = Handler.Json (Handler.Results r) st ->
  st = 200
  /\ Handler.pageSize r
     = Handler.htmlSize r + sum_sizes (Handler.resourceBreakdown r)
  /\ Handler.requestCount r = sum_counts (Handler.resourceBreakdown r)
  /\ 1 <= Handler.requestCount r
  /\ 0 <= Handler.htmlSize r <= Handler.pageSize r
  /\ Handler.loadTime r = endTime - startTime
  /\ Handler.title r <> EmptyString
  /\ Handler.metaDescription r <> EmptyString.
Proof.
  intros H. apply POST_results_shape in H as (u & html & -> & ->).
  cbn [Handler.pageSize Handler.htmlSize Handler.resourceBreakdown
       Handler.requestCount Handler.loadTime Handler.title
       Handler.metaDescription].
  pose proof (analysis_totalRequests_at_least_1 (Handler.load env html) u)
    as Hb.
  pose proof (byteLength_nonneg html) as Hl.
  pose proof (analysis_balanced (Handler.load env html) u) as Hs.
  pose proof (analysis_sum_sizes_nonneg (Handler.load env html) u) as Hn.
  pose proof (totalRequests_sum_counts (Handler.load env html) u) as Hc.
  split; [reflexivity|]. split; [lia|]. split; [exact Hc|].
  split; [exact Hb|]. split; [lia|]. split; [reflexivity|].
  split; apply or_default_nonempty; discriminate.
Qed.

Lemma POST_results_are_consistent_witness :
  exists r,
    Handler.POST sample_env (Handler.Url (Some "https://example.com/"))
      1000 1250 "2025-01-01T00:00:00.000Z"
    = Handler.Json (Handler.Results r) 200
    /\ Handler.pageSize r
       = Handler.htmlSize r + sum_sizes (Handler.resourceBreakdown r)
    /\ Handler.requestCount r = 4.
Proof.
  eexists. split; [reflexivity|]. split.
  - exact (proj1 (proj2 (POST_results_are_consistent sample_env
             (Handler.Url (Some "https://example.com/")) 1000 1250
             "2025-01-01T00:00:00.000Z" _ 200 eq_refl))).
  - reflexivity.
Defined.


(** * The browser routes *)

Import Browser BrowserCases.

Lemma nadd_assoc a b c : nadd a (nadd b c) = nadd (nadd a b) c.
Proof. destruct a, b, c; simpl; f_equal; lia. Qed.

Lemma nadd_comm a b : nadd a b = nadd b a.
Proof. destruct a, b; simpl; f_equal; lia. Qed.

Lemma nadd_zero_r a : nadd a (Some 0) = a.
Proof. destruct a; simpl; f_equal; lia. Qed.











Lemma browser_sample :
  requestCount (collect sample_parseInt sample_responses) = 3
  /\ pageSize (collect sample_parseInt sample_responses) = None
  /\ t_count (r_resourceBreakdown (collect sample_parseInt sample_responses)
                other) = 1
  /\ pageSize (collect sample_parseInt (firstn 2 sample_responses)) = Some 7.
Proof. repeat split. Qed.

(** * The scores of the page *)

(** X17: for each of the three metrics the score never gets better as the
    value grows: a larger load time, page size or request count is given
    a label that is the same or worse. *)
Theorem score_never_improves_with_value metric v v' :
  v <= v' ->
  Ui.rank (Ui.label (Ui.getPerformanceScore metric v'))
  <= Ui.rank (Ui.label (Ui.getPerformanceScore metric v)).
Proof.
  intros H. unfold Ui.getPerformanceScore.
  destruct (String.eqb metric "loadTime");
    [|destruct (String.eqb metric "pageSize");
      [|destruct (String.eqb metric "requests")]];
    repeat match goal with
           | |- context [?a <? ?b] => destruct (Z.ltb_spec a b)
           end; simpl Ui.label; try lia; vm_compute; discriminate.
Qed.

Lemma score_never_improves_with_value_witness :
  Ui.label (Ui.getPerformanceScore "loadTime" 999) = "Excellent"
  /\ Ui.label (Ui.getPerformanceScore "loadTime" 1000) = "Good"
  /\ Ui.rank (Ui.label (Ui.getPerformanceScore "loadTime" 1000))
     <= Ui.rank (Ui.label (Ui.getPerformanceScore "loadTime" 999)).
Proof.
  split; [reflexivity|]. split; [reflexivity|].
  apply (score_never_improves_with_value "loadTime" 999 1000). lia.
Defined.

(** X18: the two pages agree: the texts the one page writes in line for
    load time, page size and request count are the labels
    getPerformanceScore gives for loadTime, pageSize and requests on the
    other, and the class written beside a text is green for Excellent,
    yellow for Good and red for Needs Improvement. *)
Theorem inline_scores_agree_with_getPerformanceScore v :
  Ui.loadTime_text v = Ui.label (Ui.getPerformanceScore "loadTime" v)
  /\ Ui.pageSize_text v = Ui.label (Ui.getPerformanceScore "pageSize" v)
  /\ Ui.requestCount_text v
     = Ui.label (Ui.getPerformanceScore "requests" v)
  /\ Forall (fun p =>
       fst p = (if String.eqb (snd p) "Excellent" then "text-green-600"
                else if String.eqb (snd p) "Good" then "text-yellow-600"
                else "text-red-600"))
       [(Ui.loadTime_class v, Ui.loadTime_text v);
        (Ui.pageSize_class v, Ui.pageSize_text v);
        (Ui.requestCount_class v, Ui.requestCount_text v)].
Proof.
  unfold Ui.getPerformanceScore, Ui.loadTime_text, Ui.pageSize_text,
    Ui.requestCount_text, Ui.loadTime_class, Ui.pageSize_class,
    Ui.requestCount_class. simpl String.eqb. cbv iota.
  repeat split;
    repeat (apply Forall_cons || apply Forall_nil);
    repeat match goal with
           | |- context [?a <? ?b] => destruct (Z.ltb_spec a b)
           end; try reflexivity; lia.
Qed.

(** A link can reach the bound of five: style sheet, background image,
    font link and the two fonts of the web-font rule. *)
Example five_from_one_link :
  totalRequests
    (analyzeResourcesWithCheerio
       [link [("rel", "stylesheet");
              ("href", "https://fonts.googleapis.com/css?family=Roboto");
              ("style", "background-image:\url\x\")]]
       "https://example.com/")
  = 6.
Proof. reflexivity. Qed.
